(** * Company / VAT field customisation of the checkout forms

    A shallow embedding of the [MTX] customisations made to the billing and
    shipping address forms of the checkout (BillingForm and ShippingForm,
    together with mtxConfig.ts), and the properties stated about them.

    Layout: the embedding first (one module per concern, in the order of the
    source), then the properties.

    Conventions.
    - A JavaScript [string | undefined] is an [option string]; [a || b]
      is [Js.or], whose left operand wins when it is truthy (defined and
      not the empty string).
    - An object reference into the document is the index of the element in
      document (tree) order, so two references to one element alias.
    - A value coming from [res.json()] is untyped at run time: it is a
      [Js.JsonValue] (number literals are restricted to integers). *)

From stdpp Require Import base option list strings gmap pretty.
From Stdlib Require Import ZArith Ascii.

Local Open Scope string_scope.
#[local] Set Warnings "-register-all".

(** ** JavaScript values *)

Module Js.

(** [!!s] for a string. *)
Definition truthy_string (s : string) : bool := negb (bool_decide (s = "")).

(** [!!v] for [v : string | undefined]. *)
Definition truthy (v : option string) : bool :=
  match v with
  | Some s => truthy_string s
  | None => false
  end.

(** [a || b] on [string | undefined]. *)
Definition or (a b : option string) : option string :=
  if truthy a then a else b.

(** [a || ''], the last link of an [||] chain that ends in a literal. *)
Definition or_literal (a : option string) (b : string) : string :=
  match a with
  | Some s => if truthy_string s then s else b
  | None => b
  end.

(** [a === b] on strings. *)
Definition strict_eq (a b : string) : bool := bool_decide (a = b).

(** What [JSON.parse] can return. *)
Inductive JsonValue : Type :=
  | JNull
  | JBool (b : bool)
  | JNumber (n : Z)
  | JString (s : string)
  | JArray (items : list JsonValue)
  | JObject (members : list (string * JsonValue)).

(** [!!v] for a value read off parsed JSON; [None] is [undefined]. *)
Definition truthy_value (v : option JsonValue) : bool :=
  match v with
  | None => false
  | Some JNull => false
  | Some (JBool b) => b
  | Some (JNumber n) => negb (n =? 0)%Z
  | Some (JString s) => truthy_string s
  | Some (JArray _) => true
  | Some (JObject _) => true
  end.

(** Own property of a parsed object: of a repeated key, [JSON.parse] keeps
    the last. *)
Fixpoint own_property (key : string) (members : list (string * JsonValue))
  : option JsonValue :=
  match members with
  | [] => None
  | (k, v) :: rest =>
      match own_property key rest with
      | Some later => Some later
      | None => if strict_eq k key then Some v else None
      end
  end.

(** The errors that can reach the [catch] of [loadCompanyVat]. *)
Inductive Error : Type :=
  | NetworkError                (* fetch rejected *)
  | HttpError (message : string)  (* new Error(`HTTP ${res.status}`) *)
  | SyntaxError                 (* res.json() on a body that is not JSON *)
  | TypeError.                  (* property read on null *)

End Js.

(** ** mtxConfig.ts *)

Module mtxConfig.

Module shippingMethods.
Definition corriereStandard : string := "Corriere Espresso B2B".
Definition corriereContrassegno : string := "Corriere Contrassegno B2B".
End shippingMethods.

Module AddressCustomFields.
Definition pIvaID : string := "30".
Definition fattID : string := "32".
End AddressCustomFields.

End mtxConfig.

(** ** Types of the checkout SDK used by the two forms *)

Module Sdk.

(** [FormField]: the attributes the forms read or write by name, and the
    remaining (optional, display) attributes as a property list. *)
Record FormField : Type := {
  name : string;
  custom : bool;
  id : string;
  label : string;
  required : bool;
  attributes : list (string * Js.JsonValue)
}.

(** [fieldValue: string | number | string[]]. *)
Inductive FieldValue : Type :=
  | FVString (s : string)
  | FVNumber (n : Z)
  | FVList (l : list string).

Record CustomField : Type := {
  fieldId : string;
  fieldValue : FieldValue
}.

Record Address : Type := {
  firstName : string;
  lastName : string;
  company : string;
  address1 : string;
  address2 : string;
  city : string;
  stateOrProvince : string;
  stateOrProvinceCode : string;
  country : string;
  countryCode : string;
  postalCode : string;
  phone : string;
  (* [None]: not an array (Array.isArray is false) *)
  customFields : option (list CustomField);
  shouldSaveAddress : option bool
}.

Record CustomerGroup : Type := {
  groupId : Z;
  groupName : string
}.

Record Customer : Type := {
  customerId : Z;        (* [id] in the SDK *)
  isGuest : bool;
  customerGroup : option CustomerGroup;
  addresses : list Address
}.

End Sdk.

(** ** Field-requirement patchers *)

Module FieldPatch.
Import Sdk.

(** BillingForm, [getFieldsWithPivaReadonly]. *)
Definition getFieldsWithPivaReadonly
    (getFields : option string -> list FormField)
    (countryCode : option string) : list FormField :=
  let fields := getFields countryCode in
  let pIvaId := mtxConfig.AddressCustomFields.pIvaID in
  (fun field =>
     let isPivaField :=
       Js.strict_eq (name field) ("field_" +:+ pIvaId)
       || Js.strict_eq (name field) ("customField[" +:+ pIvaId +:+ "]")
       || Js.strict_eq (id field) pIvaId in
     let isCompanyField :=
       Js.strict_eq (name field) "company"
       || Js.strict_eq (name field) "billingAddress.company"
       || Js.strict_eq (name field) "shippingAddress.company"
       || Js.strict_eq (id field) "company" in
     if isPivaField || isCompanyField
     then {| name := name field; custom := custom field; id := id field;
             label := label field; required := false;
             attributes := attributes field |}
     else field) <$> fields.

(** ShippingForm, [getFieldsWithPivaRequired]; [getFields] is the form's
    prop, captured by the closure. *)
Definition getFieldsWithPivaRequired
    (getFields : option string -> list FormField)
    (countryCode : option string) : list FormField :=
  let fields := getFields countryCode in
  let pIvaId := mtxConfig.AddressCustomFields.pIvaID in
  (fun field =>
     let isPivaField :=
       Js.strict_eq (name field) ("field_" +:+ pIvaId)
       || Js.strict_eq (name field) ("customField[" +:+ pIvaId +:+ "]")
       || Js.strict_eq (id field) pIvaId in
     let isCompanyField :=
       Js.strict_eq (name field) "company"
       || Js.strict_eq (name field) "shippingAddress.company"
       || Js.strict_eq (id field) "company" in
     if isPivaField || isCompanyField
     then {| name := name field; custom := custom field; id := id field;
             label := label field; required := false;
             attributes := attributes field |}
     else field) <$> fields.

End FieldPatch.

(** ** Company name and VAT number of the customer *)

Module CompanyInfo.
Import Sdk.

(** The [companyName] constant of both forms. BillingForm passes its
    [billingAddress] prop as the address being edited, ShippingForm its
    [shippingAddress] prop; the rest of the expression is the same text.
    [customer] is optional in ShippingForm ([customer?.]). *)
Definition companyName (customer : option Customer)
    (editedAddress : option Address) : string :=
  let companyNameFromGroup :=
    c ← customer; g ← customerGroup c; Some (groupName g) in
  let companyNameFromAddress :=
    c ← customer; a ← addresses c !! 0%nat; Some (company a) in
  Js.or_literal
    (Js.or (Js.or companyNameFromGroup companyNameFromAddress)
           (company <$> editedAddress))
    "".

(** *** The request to the company-data endpoint *)

Record Request : Type := {
  url : string;
  credentials : string
}.

Record Response : Type := {
  status : nat;
  (* what [await res.json()] gives: the parsed body, or the rejection *)
  json : Js.Error + Js.JsonValue
}.

(** [res.ok]: the status is in the range 200-299. *)
Definition ok (res : Response) : bool :=
  (200 <=? status res)%nat && (status res <=? 299)%nat.

(** What [await fetch(...)] gives: a response of any status, or a
    rejection when the request could not be made. *)
Inductive FetchOutcome : Type :=
  | Rejected
  | Responded (res : Response).

(** *** Component state touched by the effect, and the console *)

Record State : Type := {
  (* React state [companyVat]; declared string, written from untyped JSON *)
  companyVat : Js.JsonValue;
  (* console.error calls so far, oldest first *)
  console : list (string * Js.Error)
}.

(** [React.useState<string>('')]. *)
Definition initialState : State :=
  {| companyVat := Js.JString ""; console := [] |}.

(** *** Statements that may throw, over the component state *)

Inductive Completion (A : Type) : Type :=
  | Normal (a : A)
  | Throw (e : Js.Error).
Arguments Normal {A} a.
Arguments Throw {A} e.

Definition Eff (A : Type) : Type := State -> Completion A * State.

Definition ret {A} (a : A) : Eff A := fun st => (Normal a, st).

Definition throw {A} (e : Js.Error) : Eff A := fun st => (Throw e, st).

Definition bind {A B} (m : Eff A) (k : A -> Eff B) : Eff B :=
  fun st =>
    match m st with
    | (Normal a, st') => k a st'
    | (Throw e, st') => (Throw e, st')
    end.

(** [try { body } catch (error) { handler }]. *)
Definition try_catch {A} (body : Eff A) (handler : Js.Error -> Eff A) : Eff A :=
  fun st =>
    match body st with
    | (Normal a, st') => (Normal a, st')
    | (Throw e, st') => handler e st'
    end.

#[local] Instance eff_ret : MRet Eff := @ret.
#[local] Instance eff_bind : MBind Eff := fun A B k m => bind m k.

(** [await fetch(url, options)]. *)
Definition await_fetch (fetch : Request -> FetchOutcome) (req : Request)
  : Eff Response :=
  match fetch req with
  | Rejected => throw Js.NetworkError
  | Responded res => ret res
  end.

(** [await res.json()]. *)
Definition await_json (res : Response) : Eff Js.JsonValue :=
  match json res with
  | inl e => throw e
  | inr data => ret data
  end.

(** [data.vatNumber]: a [TypeError] on [null], the own property on an
    object, [undefined] on every other value (none carries that name). *)
Definition get_vatNumber (data : Js.JsonValue) : Eff (option Js.JsonValue) :=
  match data with
  | Js.JNull => throw Js.TypeError
  | Js.JObject members => ret (Js.own_property "vatNumber" members)
  | _ => ret None
  end.

Definition setCompanyVat (v : Js.JsonValue) : Eff unit :=
  fun st => (Normal tt, {| companyVat := v; console := console st |}).

Definition console_error (message : string) (error : Js.Error) : Eff unit :=
  fun st =>
    (Normal tt,
     {| companyVat := companyVat st;
        console := console st ++ [(message, error)] |}).

(** [loadCompanyVat], the same text in both forms. [fetch] stands for the
    network; [customerId] is the variable the closure captures. *)
Definition loadCompanyVat (fetch : Request -> FetchOutcome) (customerId : Z)
  : Eff unit :=
  try_catch
    (let url :=
       "https://www.bigcommerceconnector.com/gem/getCompanyData.php?customerId="
       +:+ pretty customerId in
     res ← await_fetch fetch {| url := url; credentials := "include" |};
     if negb (ok res)
     then throw (Js.HttpError ("HTTP " +:+ pretty (status res)))
     else
       data ← await_json res;
       vatNumber ← get_vatNumber data;
       if Js.truthy_value vatNumber
       then match vatNumber with
            | Some v => setCompanyVat v
            | None => ret tt            (* not reached: undefined is falsy *)
            end
       else ret tt)
    (fun error =>
       console_error "[MTX] - errore caricando P.IVA da backend" error).

(** The effect on [customerId]: nothing when it is falsy (no customer, or
    the id 0 of a guest), otherwise one call of [loadCompanyVat], whose
    promise is not awaited. *)
Definition companyVatEffect (fetch : Request -> FetchOutcome)
    (customerId : option Z) : Eff unit :=
  match customerId with
  | None => ret tt
  | Some n => if (n =? 0)%Z then ret tt else loadCompanyVat fetch n
  end.

End CompanyInfo.

(** ** ShippingForm: single- or multi-shipping *)

Module ShippingMode.

Record CheckoutSettings : Type := {
  hasMultiShippingEnabled : option bool
}.

Record StoreConfig : Type := {
  checkoutSettings : option CheckoutSettings
}.

Inductive RenderedForm : Type :=
  | MultiShippingForm
  | SingleShippingForm.

(** [!!shippingFormRenderTimestamp] for [number | undefined]. *)
Definition truthy_timestamp (t : option Z) : bool :=
  match t with
  | Some n => negb (n =? 0)%Z
  | None => false
  end.

Section WithIsUsingMultiShipping.

(** [isUsingMultiShipping] is imported from a module of its own and
    consignments and line items are SDK types: the form only passes them
    on, so they are parameters here. *)
Variables Consignment LineItemMap : Type.
Variable isUsingMultiShipping : list Consignment -> LineItemMap -> bool.

Record Cart : Type := {
  lineItems : LineItemMap
}.

(** The constant [isMultiShippingMode] computed inside the effect. *)
Definition resolvedMultiShippingMode (config : option StoreConfig)
    (cart : option Cart) (consignments : option (list Consignment)) : bool :=
  let hasMultiShippingEnabled :=
    default false
      (c ← config; s ← checkoutSettings c; hasMultiShippingEnabled s) in
  match cart, consignments with
  | Some cart, Some consignments =>
      hasMultiShippingEnabled
      && isUsingMultiShipping consignments (lineItems cart)
  | _, _ => false
  end.

(** The effect on [shippingFormRenderTimestamp]. The parent's flag, which
    comes back as the prop [isMultiShippingMode], is the state:
    [setIsMultishippingMode] overwrites it. *)
Definition multiShippingEffect (shippingFormRenderTimestamp : option Z)
    (config : option StoreConfig) (cart : option Cart)
    (consignments : option (list Consignment))
    (parentFlag : bool) : bool :=
  if truthy_timestamp shippingFormRenderTimestamp
  then resolvedMultiShippingMode config cart consignments
  else parentFlag.

(** The branch of the [return] statement. *)
Definition render (isMultiShippingMode : bool) : RenderedForm :=
  if isMultiShippingMode then MultiShippingForm else SingleShippingForm.

End WithIsUsingMultiShipping.

Arguments lineItems {LineItemMap} c.
Arguments resolvedMultiShippingMode {Consignment LineItemMap}
  isUsingMultiShipping config cart consignments.
Arguments multiShippingEffect {Consignment LineItemMap}
  isUsingMultiShipping shippingFormRenderTimestamp config cart consignments
  parentFlag.

End ShippingMode.

(** ** ShippingForm: the address handed to the single-shipping form *)

Module AddressPatch.
Import Sdk.

Definition pIvaCustomFieldId : string :=
  "field_" +:+ mtxConfig.AddressCustomFields.pIvaID.

Definition patchedShippingAddress (companyName companyVat : string)
    (shippingAddress : option Address) : option Address :=
  match shippingAddress with
  | Some shippingAddress =>
      Some
        {| firstName := firstName shippingAddress;
           lastName := lastName shippingAddress;
           company :=
             Js.or_literal (Some companyName) (company shippingAddress);
           address1 := address1 shippingAddress;
           address2 := address2 shippingAddress;
           city := city shippingAddress;
           stateOrProvince := stateOrProvince shippingAddress;
           stateOrProvinceCode := stateOrProvinceCode shippingAddress;
           country := country shippingAddress;
           countryCode := countryCode shippingAddress;
           postalCode := postalCode shippingAddress;
           phone := phone shippingAddress;
           customFields :=
             match customFields shippingAddress with
             | Some fields =>
                 Some
                   ((fun customField =>
                       if Js.strict_eq (fieldId customField) pIvaCustomFieldId
                       then {| fieldId := fieldId customField;
                               fieldValue := FVString companyVat |}
                       else customField) <$> fields)
             | None => customFields shippingAddress
             end;
           shouldSaveAddress := shouldSaveAddress shippingAddress |}
  | None => shippingAddress
  end.

End AddressPatch.

(** ** The document, the window's timers and the synchronising effect *)

Module DomSync.

(** *** What an element stores when its value is assigned

    The setter of [value] does not store every string as it is: an input
    applies the value sanitization algorithm of its type (a text, search,
    tel or password input strips line breaks; a number or date input
    stores the empty string for a value that is not valid for it), a
    select stores the value only when an option carries it, and an element
    on which [value] is a plain property stores the string itself. What
    these have in common is that storing what was stored changes nothing
    more. *)
Record Sanitization : Type := {
  stored : string -> string;
  stored_idempotent : ∀ v, stored (stored v) = stored v
}.

(** U+000A LINE FEED and U+000D CARRIAGE RETURN. *)
Definition is_newline (c : ascii) : bool :=
  bool_decide (c = "010"%char) || bool_decide (c = "013"%char).

(** HTML, "strip newlines". *)
Fixpoint strip_newlines (s : string) : string :=
  match s with
  | EmptyString => EmptyString
  | String c rest =>
      if is_newline c then strip_newlines rest
      else String c (strip_newlines rest)
  end.

Definition strip_newlines_idempotent (v : string) :
  strip_newlines (strip_newlines v) = strip_newlines v.
Proof.
  induction v as [|c v IH]; [done|]. cbn [strip_newlines].
  destruct (is_newline c) eqn:E; [done|].
  cbn [strip_newlines]. by rewrite E, IH.
Qed.

Definition is_digit (c : ascii) : bool :=
  (48 <=? nat_of_ascii c)%nat && (nat_of_ascii c <=? 57)%nat.

(** The number of leading ASCII digits, and what follows them. *)
Fixpoint digits (s : string) : nat * string :=
  match s with
  | String c rest =>
      if is_digit c then let '(n, r) := digits rest in (S n, r)
      else (0%nat, s)
  | EmptyString => (0%nat, s)
  end.

Definition drop_char (allowed : list ascii) (s : string) : string :=
  match s with
  | String c rest => if bool_decide (c ∈ allowed) then rest else s
  | EmptyString => s
  end.

Definition valid_exponent (s : string) : bool :=
  match s with
  | EmptyString => true
  | String c rest =>
      bool_decide (c ∈ ["e"; "E"]%char)
      && (let '(n, r) := digits (drop_char ["-"; "+"]%char rest) in
          (0 <? n)%nat && bool_decide (r = ""))
  end.

(** HTML, "valid floating-point number": an optional minus sign, digits
    or a fraction or both, and an optional exponent. *)
Definition valid_floating_point_number (s : string) : bool :=
  let '(whole, r) := digits (drop_char ["-"]%char s) in
  match r with
  | String "."%char fraction =>
      let '(f, r') := digits fraction in
      (0 <? f)%nat && valid_exponent r'
  | _ => (0 <? whole)%nat && valid_exponent r
  end.

Definition valid_or_empty (valid : string -> bool) (v : string) : string :=
  if valid v then v else "".

Definition valid_or_empty_idempotent (valid : string -> bool) (v : string) :
  valid_or_empty valid (valid_or_empty valid v) = valid_or_empty valid v.
Proof.
  unfold valid_or_empty. destruct (valid v) eqn:E; [by rewrite E|].
  by destruct (valid "").
Qed.

(** [input type="text"] (and search, tel, password). *)
Definition textSanitization : Sanitization :=
  {| stored := strip_newlines;
     stored_idempotent := strip_newlines_idempotent |}.

(** [input type="number"]. *)
Definition numberSanitization : Sanitization :=
  {| stored := valid_or_empty valid_floating_point_number;
     stored_idempotent :=
       valid_or_empty_idempotent valid_floating_point_number |}.

(** An element on which [value] is a plain property. *)
Definition noSanitization : Sanitization :=
  {| stored := fun v => v; stored_idempotent := fun v => eq_refl |}.

(** An element of the page: what the synchroniser reads (tag, [id],
    [name], [value]) and what it writes ([value], [readOnly] and two style
    properties), with what its setter of [value] stores. An element
    without an [id] or [name] attribute has the empty string there. An
    element whose setter throws (an input of type file) is not a value of
    this type. *)
Record Element : Type := {
  tagName : string;
  id : string;
  name : string;
  value : string;
  readOnly : bool;
  backgroundColor : string;
  cursor : string;
  sanitization : Sanitization
}.

(** The variables the arrow function given to [setInterval] closes over
    (besides [intervalId], which is the key it is registered under), and
    the period it was registered with. *)
Record Interval : Type := {
  capturedCompanyName : string;
  capturedCompanyVat : string;
  delay : nat
}.

(** The document in tree order, the repeating timers that are active, and
    the next timer id the window hands out. *)
Record Window : Type := {
  document : list Element;
  timers : gmap nat Interval;
  nextTimerId : nat
}.

(** *** Element access *)

(** [document.getElementById]: a reference to the first element, in tree
    order, with that id. *)
Definition getElementById (elementId : string) (document : list Element)
  : option nat :=
  fst <$> list_find (fun e => Is_true (Js.strict_eq (id e) elementId))
                    document.

(** One [input[name="..."]] of a selector list. *)
Definition matches_input_name (n : string) (e : Element) : bool :=
  Js.strict_eq (tagName e) "input" && Js.strict_eq (name e) n.

(** [document.querySelector] for a list of [input[name=...]] selectors: a
    reference to the first element, in tree order, that matches one. *)
Definition querySelector (names : list string) (document : list Element)
  : option nat :=
  fst <$> list_find
            (fun e => Is_true (existsb (fun n => matches_input_name n e) names))
            document.

(** Property assignment through a reference. *)
Definition assign (ref : nat) (f : Element -> Element) (w : Window) : Window :=
  {| document := alter f ref (document w);
     timers := timers w;
     nextTimerId := nextTimerId w |}.

(** [el.value], read through a reference. *)
Definition value_of (ref : nat) (w : Window) : string :=
  default "" (value <$> document w !! ref).

Definition set_readOnly (b : bool) (e : Element) : Element :=
  {| tagName := tagName e; id := id e; name := name e; value := value e;
     readOnly := b; backgroundColor := backgroundColor e;
     cursor := cursor e; sanitization := sanitization e |}.

(** [el.value = v]: the element stores what its sanitization makes of
    [v]. *)
Definition set_value (v : string) (e : Element) : Element :=
  {| tagName := tagName e; id := id e; name := name e;
     value := stored (sanitization e) v;
     readOnly := readOnly e; backgroundColor := backgroundColor e;
     cursor := cursor e; sanitization := sanitization e |}.

Definition set_backgroundColor (c : string) (e : Element) : Element :=
  {| tagName := tagName e; id := id e; name := name e; value := value e;
     readOnly := readOnly e; backgroundColor := c; cursor := cursor e;
     sanitization := sanitization e |}.

Definition set_cursor (c : string) (e : Element) : Element :=
  {| tagName := tagName e; id := id e; name := name e; value := value e;
     readOnly := readOnly e; backgroundColor := backgroundColor e;
     cursor := c; sanitization := sanitization e |}.

(** *** Timers *)

(** [window.setInterval(handler, delay)]: the id, and the window with the
    timer registered. *)
Definition setInterval (handler : Interval) (w : Window) : nat * Window :=
  (nextTimerId w,
   {| document := document w;
      timers := <[nextTimerId w := handler]> (timers w);
      nextTimerId := S (nextTimerId w) |}).

(** [window.clearInterval(id)]. *)
Definition clearInterval (intervalId : nat) (w : Window) : Window :=
  {| document := document w;
     timers := delete intervalId (timers w);
     nextTimerId := nextTimerId w |}.

(** *** The effect, the same text in both forms *)

Definition pIvaInputId : string :=
  "field_" +:+ mtxConfig.AddressCustomFields.pIvaID +:+ "Input".

Definition companySelector : list string :=
  ["shippingAddress.company"; "company"].

(** The arrow function given to [setInterval]: one polling tick. *)
Definition intervalCallback (companyName companyVat : string)
    (intervalId : nat) (w : Window) : Window :=
  (* --- P.IVA --- *)
  let pivaInput := getElementById pIvaInputId (document w) in
  let w :=
    match pivaInput with
    | Some pivaInput =>
        let w := assign pivaInput (set_readOnly true) w in
        let w :=
          if Js.truthy_string companyVat
             && negb (Js.strict_eq (value_of pivaInput w) companyVat)
          then assign pivaInput (set_value companyVat) w
          else w in
        let w := assign pivaInput (set_backgroundColor "#f4f4f4") w in
        assign pivaInput (set_cursor "not-allowed") w
    | None => w
    end in
  (* --- COMPANY / AZIENDA --- *)
  let companyInput := querySelector companySelector (document w) in
  let w :=
    match companyInput with
    | Some companyInput =>
        let w := assign companyInput (set_readOnly true) w in
        let w :=
          if Js.truthy_string companyName
             && negb (Js.strict_eq (value_of companyInput w) companyName)
          then assign companyInput (set_value companyName) w
          else w in
        let w := assign companyInput (set_backgroundColor "#f4f4f4") w in
        assign companyInput (set_cursor "not-allowed") w
    | None => w
    end in
  if bool_decide (is_Some pivaInput) || bool_decide (is_Some companyInput)
  then clearInterval intervalId w
  else w.

(** The body of the effect: registers the tick every 300 ms and returns the
    id, which the cleanup function closes over. *)
Definition syncEffect (companyName companyVat : string) (w : Window)
  : nat * Window :=
  setInterval
    {| capturedCompanyName := companyName;
       capturedCompanyVat := companyVat;
       delay := 300 |}
    w.

(** The function the effect returns. *)
Definition syncCleanup (intervalId : nat) (w : Window) : Window :=
  clearInterval intervalId w.

(** The timer [intervalId] comes due: its handler runs if it is still
    registered, and nothing happens otherwise. *)
Definition fire (intervalId : nat) (w : Window) : Window :=
  match timers w !! intervalId with
  | Some handler =>
      intervalCallback (capturedCompanyName handler)
                       (capturedCompanyVat handler) intervalId w
  | None => w
  end.

(** The page changes under the form: the checkout framework renders or
    removes inputs, the shopper types. *)
Definition set_document (d : list Element) (w : Window) : Window :=
  {| document := d; timers := timers w; nextTimerId := nextTimerId w |}.

(** *** The life of a mounted form *)

Inductive Form : Type :=
  | BillingForm
  | ShippingForm.

Record Props : Type := {
  shippingFormRenderTimestamp : option Z;
  companyName : string;
  companyVat : string
}.

(** The dependency array of the effect: [[companyName, companyVat]] in
    BillingForm, [[shippingFormRenderTimestamp, companyName, companyVat]]
    in ShippingForm. *)
Definition deps (form : Form) (p : Props) : option Z * string * string :=
  match form with
  | BillingForm => (None, companyName p, companyVat p)
  | ShippingForm =>
      (shippingFormRenderTimestamp p, companyName p, companyVat p)
  end.

(** What React keeps for the effect of a mounted form: the dependencies of
    its last run and the interval id its cleanup will clear. *)
Record EffectInstance : Type := {
  lastDeps : option Z * string * string;
  intervalId : nat
}.

Record System : Type := {
  window : Window;
  mounted : option EffectInstance
}.

Inductive Event : Type :=
  | Render (p : Props)
  | TimerDue (timer : nat)
  | PageChanges (d : list Element)
  | Unmount.

Definition runEffect (form : Form) (p : Props) (w : Window) : System :=
  let '(i, w') := syncEffect (companyName p) (companyVat p) w in
  {| window := w';
     mounted := Some {| lastDeps := deps form p; intervalId := i |} |}.

(** React: the effect runs on mount; on a later render it runs again, after
    the cleanup of its previous run, when a dependency changed; the cleanup
    runs on unmount. *)
Definition step (form : Form) (s : System) (ev : Event) : System :=
  match ev with
  | Render p =>
      match mounted s with
      | None => runEffect form p (window s)
      | Some inst =>
          if decide (lastDeps inst = deps form p) then s
          else runEffect form p (syncCleanup (intervalId inst) (window s))
      end
  | TimerDue timer =>
      {| window := fire timer (window s); mounted := mounted s |}
  | PageChanges d =>
      {| window := set_document d (window s); mounted := mounted s |}
  | Unmount =>
      match mounted s with
      | None => s
      | Some inst =>
          {| window := syncCleanup (intervalId inst) (window s);
             mounted := None |}
      end
  end.

Definition run (form : Form) (s : System) (evs : list Event) : System :=
  foldl (step form) s evs.

(** A page on which the form is not mounted and no timer is active. *)
Definition idle (d : list Element) (next : nat) : System :=
  {| window := {| document := d; timers := ∅; nextTimerId := next |};
     mounted := None |}.

End DomSync.

(** ** BillingForm: the fields it edits and what it renders *)

Module BillingFormRender.
Import FieldPatch.

(** [methodId === 'amazonpay']. *)
Definition shouldRenderStaticAddress (methodId : option string) : bool :=
  bool_decide (methodId = Some "amazonpay").

Definition allFormFields (getFields : option string -> list Sdk.FormField)
    (countryCode : string) : list Sdk.FormField :=
  getFieldsWithPivaReadonly getFields (Some countryCode).

Definition customFormFields (getFields : option string -> list Sdk.FormField)
    (countryCode : string) : list Sdk.FormField :=
  filter (fun field => Sdk.custom field = true)
         (allFormFields getFields countryCode).

Definition hasCustomFormFields (getFields : option string -> list Sdk.FormField)
    (countryCode : string) : bool :=
  (0 <? length (customFormFields getFields countryCode))%nat.

Definition editableFormFields (methodId : option string)
    (getFields : option string -> list Sdk.FormField)
    (countryCode : string) : list Sdk.FormField :=
  if shouldRenderStaticAddress methodId
     && hasCustomFormFields getFields countryCode
  then customFormFields getFields countryCode
  else allFormFields getFields countryCode.

Record CheckoutSettings : Type := {
  enableOrderComments : bool;
  googleMapsApiKey : option string
}.

Record StoreConfig : Type := {
  checkoutSettings : CheckoutSettings
}.

(** The props of the form that the render reads, with [values.countryCode]
    of Formik. *)
Record Props : Type := {
  methodId : option string;
  billingAddress : option Sdk.Address;
  getFields : option string -> list Sdk.FormField;
  countryCode : string
}.

Record AddressSelectProps : Type := {
  addresses : option (list Sdk.Address);
  selectedAddress : option Sdk.Address;
  overlayIsLoading : bool
}.

Record ButtonProps : Type := {
  className : string;
  disabled : bool;
  isLoading : bool
}.

Section WithCheckout.

(** The cart and the countries are SDK types the form hands on;
    [getShippableItemsCount], [isValidCustomerAddress] and
    [isFloatingLabelEnabled] are imported from other modules. *)
Variables Cart Country : Type.
Variable getShippableItemsCount : Cart -> Z.
Variable isValidCustomerAddress :
  Sdk.Address -> option (list Sdk.Address) -> list Sdk.FormField -> bool.
Variable getIsFloatingLabelEnabled : CheckoutSettings -> bool.

(** What the hooks give on one render: local state, the PayPal Fastlane
    addresses, the theme, and the checkout state. *)
Record Hooks : Type := {
  isResettingAddress : bool;
  isPayPalFastlaneEnabled : bool;
  paypalFastlaneAddresses : option (list Sdk.Address);
  themeV2 : bool;
  customer : option Sdk.Customer;
  config : option StoreConfig;
  cart : option Cart;
  billingCountries : option (list Country);
  isUpdatingBillingAddress : bool;
  isUpdatingCheckout : bool
}.

Record AddressFormProps : Type := {
  countries : list Country;
  countriesWithAutocomplete : list string;
  formCountryCode : string;
  formFields : list Sdk.FormField;
  formGoogleMapsApiKey : option string;
  isFloatingLabelEnabled : bool;
  shouldShowSaveAddress : bool;
  skeletonIsLoading : bool
}.

(** The element tree the form returns, by its conditional parts. *)
Record View : Type := {
  staticBillingAddress : option Sdk.Address;
  addressSelect : option AddressSelectProps;
  addressForm : option AddressFormProps;
  orderComments : bool;
  button : ButtonProps
}.

Inductive Rendered : Type :=
  | Threw (message : string)
  | Returned (view : View).

Definition BillingForm (props : Props) (hooks : Hooks) : Rendered :=
  match config hooks, customer hooks, cart hooks with
  | Some config, Some customer, Some cart =>
      let isGuest := Sdk.isGuest customer in
      let addresses := Sdk.addresses customer in
      let shouldRenderStaticAddress :=
        shouldRenderStaticAddress (methodId props) in
      let editableFormFields :=
        editableFormFields (methodId props) (getFields props)
                           (countryCode props) in
      let billingAddresses :=
        if isGuest && isPayPalFastlaneEnabled hooks
        then paypalFastlaneAddresses hooks
        else Some addresses in
      let hasAddresses :=
        match billingAddresses with
        | Some l => (0 <? length l)%nat
        | None => false
        end in
      let hasValidCustomerAddress :=
        match billingAddress props with
        | Some billingAddress =>
            isValidCustomerAddress billingAddress billingAddresses
              (getFieldsWithPivaReadonly (getFields props)
                 (Some (Sdk.countryCode billingAddress)))
        | None => false
        end in
      let isUpdating :=
        isUpdatingBillingAddress hooks || isUpdatingCheckout hooks in
      let shouldShowOrderComments :=
        enableOrderComments (checkoutSettings config)
        && (getShippableItemsCount cart <? 1)%Z in
      let countries := default [] (billingCountries hooks) in
      Returned
        {| staticBillingAddress :=
             if shouldRenderStaticAddress then billingAddress props
             else None;
           addressSelect :=
             if hasAddresses && negb shouldRenderStaticAddress
             then Some {| addresses := billingAddresses;
                          selectedAddress :=
                            if hasValidCustomerAddress
                            then billingAddress props else None;
                          overlayIsLoading := isResettingAddress hooks |}
             else None;
           addressForm :=
             if negb hasValidCustomerAddress
             then Some {| countries := countries;
                          countriesWithAutocomplete :=
                            ["US"; "CA"; "AU"; "NZ"; "GB"];
                          formCountryCode := countryCode props;
                          formFields := editableFormFields;
                          formGoogleMapsApiKey :=
                            googleMapsApiKey (checkoutSettings config);
                          isFloatingLabelEnabled :=
                            getIsFloatingLabelEnabled
                              (checkoutSettings config);
                          shouldShowSaveAddress := negb isGuest;
                          skeletonIsLoading := isResettingAddress hooks |}
             else None;
           orderComments := shouldShowOrderComments;
           button :=
             {| className := if themeV2 hooks then "body-bold" else "";
                disabled := isUpdating || isResettingAddress hooks;
                isLoading := isUpdating || isResettingAddress hooks |} |}
  | _, _, _ => Threw "checkout data is not available"
  end.

End WithCheckout.

Arguments isResettingAddress {Cart Country} h.
Arguments isPayPalFastlaneEnabled {Cart Country} h.
Arguments paypalFastlaneAddresses {Cart Country} h.
Arguments themeV2 {Cart Country} h.
Arguments customer {Cart Country} h.
Arguments config {Cart Country} h.
Arguments cart {Cart Country} h.
Arguments billingCountries {Cart Country} h.
Arguments isUpdatingBillingAddress {Cart Country} h.
Arguments isUpdatingCheckout {Cart Country} h.
Arguments countries {Country} a.
Arguments countriesWithAutocomplete {Country} a.
Arguments formCountryCode {Country} a.
Arguments formFields {Country} a.
Arguments formGoogleMapsApiKey {Country} a.
Arguments isFloatingLabelEnabled {Country} a.
Arguments shouldShowSaveAddress {Country} a.
Arguments skeletonIsLoading {Country} a.
Arguments staticBillingAddress {Country} v.
Arguments addressSelect {Country} v.
Arguments addressForm {Country} v.
Arguments orderComments {Country} v.
Arguments button {Country} v.
Arguments Hooks : clear implicits.
Arguments View : clear implicits.
Arguments Rendered : clear implicits.
Arguments Threw {Country} message.
Arguments Returned {Country} view.
Arguments BillingForm {Cart Country} getShippableItemsCount
  isValidCustomerAddress getIsFloatingLabelEnabled props hooks.

End BillingFormRender.

(** ** BillingForm: selecting an address *)

Module BillingFormHandlers.

(** What a promise can reject with, as far as [instanceof Error] tells. *)
Inductive Thrown : Type :=
  | ErrorInstance (message : string)
  | OtherValue (v : Js.JsonValue).

(** The argument of [updateBillingAddress]: the address picked in the
    select, or the [{}] of "use a new address". *)
Inductive PartialAddress : Type :=
  | NoFields
  | Fields (address : Sdk.Address).

(** What the handler does to the world, in order. *)
Inductive Action : Type :=
  | SetIsResettingAddress (b : bool)
  | UpdateBillingAddress (address : PartialAddress)
  | OnUnhandledError (message : string).

(** A statement: the actions it performed and, when it threw, what. *)
Definition Proc : Type := list Action * option Thrown.

Definition act (a : Action) : Proc := ([a], None).

Definition skip : Proc := ([], None).

(** [p; q]. *)
Definition seq (p q : Proc) : Proc :=
  match p.2 with
  | Some e => p
  | None => ((p.1 ++ q.1)%list, q.2)
  end.

(** [try { p } catch (error) { handler }]. *)
Definition try_catch (p : Proc) (handler : Thrown -> Proc) : Proc :=
  match p.2 with
  | Some e => seq (p.1, None) (handler e)
  | None => p
  end.

(** [try { p } finally { f }]. *)
Definition try_finally (p f : Proc) : Proc :=
  ((p.1 ++ f.1)%list,
   match f.2 with
   | Some e => Some e
   | None => p.2
   end).

(** A call of a function of the environment, which may throw. *)
Definition call (a : Action) (outcome : option Thrown) : Proc :=
  ([a], outcome).

(** [handleSelectAddress]. [updateBillingAddress] tells how the checkout
    service settles the update, [onUnhandledError] how the prop of that
    name completes. *)
Definition handleSelectAddress
    (updateBillingAddress : PartialAddress -> option Thrown)
    (onUnhandledError : string -> option Thrown)
    (address : PartialAddress) : Proc :=
  seq (act (SetIsResettingAddress true))
      (try_finally
         (try_catch
            (call (UpdateBillingAddress address)
                  (updateBillingAddress address))
            (fun error =>
               match error with
               | ErrorInstance message =>
                   call (OnUnhandledError message) (onUnhandledError message)
               | OtherValue _ => skip
               end))
         (act (SetIsResettingAddress false))).

(** [handleUseNewAddress]: [void handleSelectAddress({})]. *)
Definition handleUseNewAddress
    (updateBillingAddress : PartialAddress -> option Thrown)
    (onUnhandledError : string -> option Thrown) : list Action :=
  (handleSelectAddress updateBillingAddress onUnhandledError NoFields).1.

(** The value of the state [isResettingAddress] after a run of actions
    that started from [b]. *)
Definition isResettingAddress_after (b : bool) (log : list Action) : bool :=
  foldl (fun b a =>
           match a with
           | SetIsResettingAddress b' => b'
           | _ => b
           end) b log.

End BillingFormHandlers.

(** ** BillingForm: the Formik configuration *)

Module BillingFormik.
Import FieldPatch.

Record Props : Type := {
  methodId : option string;
  billingAddress : option Sdk.Address;
  customerMessage : string;
  getFields : option string -> list Sdk.FormField
}.

Section WithSchemas.

(** The language, the schemas and their builders come from other modules
    ([../address], [../formFields], yup). *)
Variables Language Translate Schema : Type.
Variable getAddressFormFieldsValidationSchema :
  Language -> list Sdk.FormField -> Schema.
Variable getCustomFormFieldsValidationSchema :
  Translate -> list Sdk.FormField -> Schema.
Variable getTranslateAddressError : Language -> Translate.
Variable isValidSync : Schema -> Sdk.Address -> bool.
Variable mapAddressToFormValues :
  list Sdk.FormField -> option Sdk.Address -> gmap string Js.JsonValue.

(** [{ ...mapAddressToFormValues(...), orderComment: customerMessage }]. *)
Definition mapPropsToValues (props : Props) : gmap string Js.JsonValue :=
  <["orderComment" := Js.JString (customerMessage props)]>
    (mapAddressToFormValues
       (getFieldsWithPivaReadonly (getFields props)
          (Sdk.countryCode <$> billingAddress props))
       (billingAddress props)).

Definition isInitialValid (language : Language) (props : Props) : bool :=
  match billingAddress props with
  | Some billingAddress =>
      isValidSync
        (getAddressFormFieldsValidationSchema language
           (getFieldsWithPivaReadonly (getFields props)
              (Some (Sdk.countryCode billingAddress))))
        billingAddress
  | None => false
  end.

(** The schema [lazy] builds for the values being validated; [values] may
    be undefined and so may its country code. *)
Definition validationSchema (language : Language) (props : Props)
    (values : option (option string)) : Schema :=
  if bool_decide (methodId props = Some "amazonpay")
  then getCustomFormFieldsValidationSchema
         (getTranslateAddressError language)
         (getFieldsWithPivaReadonly (getFields props) (mjoin values))
  else getAddressFormFieldsValidationSchema language
         (getFieldsWithPivaReadonly (getFields props) (mjoin values)).

End WithSchemas.

End BillingFormik.

(** ** ShippingForm: the props of the form it renders *)

Module ShippingFormRender.

Record MultiShippingFormProps : Type := {
  multiCartHasChanged : bool;
  multiCustomerMessage : string;
  defaultCountryCode : option string;
  multiIsLoading : bool
}.

Record SingleShippingFormProps : Type := {
  cartHasChanged : bool;
  customerMessage : string;
  getFields : option string -> list Sdk.FormField;
  isLoading : bool;
  isMultiShippingMode : bool;
  shippingAddress : option Sdk.Address;
  shippingFormRenderTimestamp : option Z
}.

Inductive Rendered : Type :=
  | MultiShippingForm (props : MultiShippingFormProps)
  | SingleShippingForm (props : SingleShippingFormProps).

Record Props : Type := {
  propCartHasChanged : bool;
  propCustomerMessage : string;
  propGetFields : option string -> list Sdk.FormField;
  propIsLoading : bool;
  propIsMultiShippingMode : bool;
  propShippingAddress : option Sdk.Address;
  propShippingFormRenderTimestamp : option Z
}.

(** The [return] of ShippingForm, with the props of the child form that
    the form computes or that carry addresses and fields; [customer] and
    [companyVat] are what the hooks give on this render. *)
Definition ShippingForm (props : Props) (customer : option Sdk.Customer)
    (companyVat : string) : Rendered :=
  let companyName :=
    CompanyInfo.companyName customer (propShippingAddress props) in
  if propIsMultiShippingMode props
  then MultiShippingForm
         {| multiCartHasChanged := propCartHasChanged props;
            multiCustomerMessage := propCustomerMessage props;
            defaultCountryCode :=
              Sdk.countryCode <$> propShippingAddress props;
            multiIsLoading := propIsLoading props |}
  else SingleShippingForm
         {| cartHasChanged := propCartHasChanged props;
            customerMessage := propCustomerMessage props;
            getFields :=
              FieldPatch.getFieldsWithPivaRequired (propGetFields props);
            isLoading := propIsLoading props;
            isMultiShippingMode := propIsMultiShippingMode props;
            shippingAddress :=
              AddressPatch.patchedShippingAddress companyName companyVat
                (propShippingAddress props);
            shippingFormRenderTimestamp :=
              propShippingFormRenderTimestamp props |}.

End ShippingFormRender.

(** * Vocabulary of the properties *)

Module FieldPatchSpec.
Import Sdk.

(** A field that stands for the VAT number, under one of its three names. *)
Definition vat_alias (f : FormField) : Prop :=
  name f = "field_" +:+ mtxConfig.AddressCustomFields.pIvaID
  ∨ name f = "customField[" +:+ mtxConfig.AddressCustomFields.pIvaID +:+ "]"
  ∨ id f = mtxConfig.AddressCustomFields.pIvaID.

(** A field that stands for the company, under one of four names. *)
Definition company_alias (f : FormField) : Prop :=
  name f = "company"
  ∨ name f = "billingAddress.company"
  ∨ name f = "shippingAddress.company"
  ∨ id f = "company".

(** The company names the shipping form knows. *)
Definition shipping_company_alias (f : FormField) : Prop :=
  name f = "company"
  ∨ name f = "shippingAddress.company"
  ∨ id f = "company".

(** The same field, not required. *)
Definition not_required (f : FormField) : FormField :=
  {| name := name f; custom := custom f; id := id f; label := label f;
     required := false; attributes := attributes f |}.

(** [patcher] returns the fields of [getFields] one for one and in order,
    those that satisfy [alias] no longer required, the others as they
    were. *)
Definition relaxes (alias : FormField -> Prop)
    (patcher : (option string -> list FormField) -> option string ->
               list FormField) : Prop :=
  ∀ getFields countryCode,
    Forall2 (fun f g => (alias f -> g = not_required f)
                        ∧ (¬ alias f -> g = f))
            (getFields countryCode) (patcher getFields countryCode).

(** A plain text field, for the examples. *)
Definition textField (fieldName fieldId : string) (isRequired : bool)
  : FormField :=
  {| name := fieldName; custom := false; id := fieldId; label := fieldName;
     required := isRequired; attributes := [] |}.

(** A required field under the billing name of the company. *)
Definition billingCompanyField : FormField :=
  textField "billingAddress.company" "field_5" true.

End FieldPatchSpec.

Module CompanyInfoSpec.
Import Sdk CompanyInfo.

(** A name that is there: defined and not empty. *)
Definition present (v : option string) : Prop :=
  ∃ s, v = Some s ∧ s ≠ "".

(** The three sources of the company name. *)
Definition groupNameOf (customer : option Customer) : option string :=
  match customer with
  | Some c => groupName <$> customerGroup c
  | None => None
  end.

Definition firstAddressCompany (customer : option Customer) : option string :=
  match customer with
  | Some c => company <$> head (addresses c)
  | None => None
  end.

Definition editedCompany (editedAddress : option Address) : option string :=
  company <$> editedAddress.

(** The precedence, in the words of the specification: the group name if
    present, otherwise the first stored address's company, otherwise the
    company of the address being edited, otherwise the empty string. *)
Inductive by_precedence (group stored edited : option string)
  : string -> Prop :=
  | from_group s :
      group = Some s -> s ≠ "" -> by_precedence group stored edited s
  | from_stored s :
      ¬ present group -> stored = Some s -> s ≠ "" ->
      by_precedence group stored edited s
  | from_edited s :
      ¬ present group -> ¬ present stored -> edited = Some s -> s ≠ "" ->
      by_precedence group stored edited s
  | from_nothing :
      ¬ present group -> ¬ present stored -> ¬ present edited ->
      by_precedence group stored edited "".

(** The request [loadCompanyVat] makes for a customer. *)
Definition companyDataRequest (customerId : Z) : Request :=
  {| url :=
       "https://www.bigcommerceconnector.com/gem/getCompanyData.php?customerId="
       +:+ pretty customerId;
     credentials := "include" |}.

Definition logMessage : string := "[MTX] - errore caricando P.IVA da backend".

(** The [vatNumber] field of a response body, [None] when it has none. *)
Definition vatNumberField (data : Js.JsonValue) : option Js.JsonValue :=
  match data with
  | Js.JObject members => Js.own_property "vatNumber" members
  | _ => None
  end.

(** A successful response (2xx, valid JSON) with body [data] leaves the
    state as it was: the VAT number kept, nothing logged, nothing thrown. *)
Definition silent_on (data : Js.JsonValue) : Prop :=
  ∀ fetch customerId st res,
    fetch (companyDataRequest customerId) = Responded res ->
    ok res = true ->
    json res = inr data ->
    loadCompanyVat fetch customerId st = (Normal tt, st).

(** An address with the given company, and a customer, for the
    examples. *)
Definition addressOf (companyOfAddress : string) : Address :=
  {| firstName := "Ada"; lastName := "Rossi"; company := companyOfAddress;
     address1 := "Via Roma 1"; address2 := ""; city := "Napoli";
     stateOrProvince := "NA"; stateOrProvinceCode := "NA";
     country := "Italy"; countryCode := "IT"; postalCode := "80100";
     phone := ""; customFields := Some []; shouldSaveAddress := None |}.

Definition customerOf (group : option string) (stored : list Address)
  : Customer :=
  {| customerId := 7; isGuest := false;
     customerGroup := (fun n => {| groupId := 1; groupName := n |}) <$> group;
     addresses := stored |}.

(** A network that answers every request with the given status and
    body. *)
Definition answering (code : nat) (body : Js.Error + Js.JsonValue)
  : Request -> FetchOutcome :=
  fun _ => Responded {| status := code; json := body |}.

End CompanyInfoSpec.

Module ShippingModeSpec.
Import ShippingMode.

(** The multi-shipping feature flag of the store is on. *)
Definition flagEnabled (config : option StoreConfig) : bool :=
  match config with
  | Some {| checkoutSettings :=
              Some {| hasMultiShippingEnabled := Some true |} |} => true
  | _ => false
  end.

End ShippingModeSpec.

Module AddressPatchSpec.
Import Sdk.

(** Two addresses agree on everything but [company] and [customFields]. *)
Definition same_elsewhere (a b : Address) : Prop :=
  firstName b = firstName a ∧ lastName b = lastName a
  ∧ address1 b = address1 a ∧ address2 b = address2 a
  ∧ city b = city a ∧ stateOrProvince b = stateOrProvince a
  ∧ stateOrProvinceCode b = stateOrProvinceCode a
  ∧ country b = country a ∧ countryCode b = countryCode a
  ∧ postalCode b = postalCode a ∧ phone b = phone a
  ∧ shouldSaveAddress b = shouldSaveAddress a.

(** [d] is the entry [c] with the VAT number written into it when [c] is
    the VAT entry, and [c] itself otherwise. *)
Definition vat_written (companyVat : string) (c d : CustomField) : Prop :=
  (fieldId c = AddressPatch.pIvaCustomFieldId ->
   d = {| fieldId := fieldId c; fieldValue := FVString companyVat |})
  ∧ (fieldId c ≠ AddressPatch.pIvaCustomFieldId -> d = c).

End AddressPatchSpec.

Module DomSyncSpec.
Import DomSync.

(** An input after one alignment with a resolved value: read-only, drawn
    as disabled, and, when the resolved value is not empty and differs from
    what the input held, holding what its setter stores for the resolved
    value. *)
Definition aligned (resolved : string) (e : Element) : Element :=
  {| tagName := tagName e; id := id e; name := name e;
     value := if decide (resolved ≠ "" ∧ value e ≠ resolved)
              then stored (sanitization e) resolved else value e;
     readOnly := true;
     backgroundColor := "#f4f4f4";
     cursor := "not-allowed";
     sanitization := sanitization e |}.

(** What one tick makes of the element [e] at position [ref] of the page
    [d]: aligned with the VAT number when it is the VAT input, and then
    with the company name when it is the company input. *)
Definition ticked (companyName companyVat : string) (d : list Element)
    (ref : nat) (e : Element) : Element :=
  let e1 :=
    if decide (getElementById pIvaInputId d = Some ref)
    then aligned companyVat e else e in
  if decide (querySelector companySelector d = Some ref)
  then aligned companyName e1 else e1.

(** The four statements of one block of the tick, on the input [ref]. *)
Definition lock (resolved : string) (ref : nat) (w : Window) : Window :=
  let w := assign ref (set_readOnly true) w in
  let w :=
    if Js.truthy_string resolved
       && negb (Js.strict_eq (value_of ref w) resolved)
    then assign ref (set_value resolved) w
    else w in
  let w := assign ref (set_backgroundColor "#f4f4f4") w in
  assign ref (set_cursor "not-allowed") w.

(** [lock] and [alter] through the result of a lookup, which may have
    found nothing. *)
Definition lock_found (resolved : string) (found : option nat) (w : Window)
  : Window :=
  match found with
  | Some ref => lock resolved ref w
  | None => w
  end.

Definition alter_found (f : Element -> Element) (found : option nat)
    (d : list Element) : list Element :=
  match found with
  | Some ref => alter f ref d
  | None => d
  end.

(** The window after the effect ran on [w] with the given resolved values
    and its first tick came due on the page [d]. *)
Definition after_first_tick (companyName companyVat : string)
    (w : Window) (d : list Element) : Window :=
  fire (syncEffect companyName companyVat w).1
       (set_document d (syncEffect companyName companyVat w).2).

(** One polling interval after the effect ran with the VAT number "IT123",
    the input [ref] holds it and is read-only, the timer, of period 300 ms,
    is cleared, and its later ticks write nothing, whatever the page then
    holds. *)
Definition vat_input_synced (companyName : string) (w : Window)
    (d : list Element) (ref : nat) : Prop :=
  let timer := (syncEffect companyName "IT123" w).1 in
  let w' := after_first_tick companyName "IT123" w d in
  delay <$> timers (syncEffect companyName "IT123" w).2 !! timer = Some 300
  ∧ (∃ e, document w' !! ref = Some e
          ∧ value e = "IT123" ∧ readOnly e = true)
  ∧ timers w' !! timer = None
  ∧ ∀ d', fire timer (set_document d' w') = set_document d' w'.

(** The timer the effect registers when the resolved VAT number is
    "IT123". *)
Definition vatTimer (companyName : string) : Interval :=
  {| capturedCompanyName := companyName;
     capturedCompanyVat := "IT123";
     delay := 300 |}.

(** What a tick of timer [i] on [w] leaves behind, for the VAT number
    "IT123": the input [ref] holds it and is read-only, the timer is
    cleared, and its later ticks write nothing, whatever the page then
    holds. *)
Definition synced_by_tick (i : nat) (w : Window) (ref : nat) : Prop :=
  (∃ e, document (fire i w) !! ref = Some e
        ∧ value e = "IT123" ∧ readOnly e = true)
  ∧ timers (fire i w) !! i = None
  ∧ ∀ d', fire i (set_document d' (fire i w)) = set_document d' (fire i w).

(** The tick of timer [i] on [w] ends the polling. *)
Definition stopped_by_tick (i : nat) (w : Window) : Prop :=
  timers (fire i w) !! i = None.

Definition vatInputFound (w : Window) : Prop :=
  is_Some (getElementById pIvaInputId (document w)).

Definition companyInputFound (w : Window) : Prop :=
  is_Some (querySelector companySelector (document w)).

(** Every timer that is active belongs to the effect of the mounted
    form. *)
Definition timer_owned (s : System) : Prop :=
  ∀ i, is_Some (timers (window s) !! i) ->
       ∃ inst, mounted s = Some inst ∧ intervalId inst = i.

(** The invariant of a page on which only this form sets timers: the
    active timers belong to the mounted effect, and ids not yet handed out
    are free. *)
Definition consistent (s : System) : Prop :=
  timer_owned s
  ∧ (∀ j, (nextTimerId (window s) ≤ j)%nat -> timers (window s) !! j = None)
  ∧ (∀ inst, mounted s = Some inst ->
             (intervalId inst < nextTimerId (window s))%nat).

(** Pages and windows the statements are tried on. *)

(** The VAT input as the checkout renders it, a text input. *)
Definition vatInput : Element :=
  {| tagName := "input"; id := "field_30Input";
     name := "shippingAddress.customFields.field_30"; value := "";
     readOnly := false; backgroundColor := ""; cursor := "";
     sanitization := textSanitization |}.

(** A VAT input of type number. *)
Definition numberVatInput : Element :=
  {| tagName := "input"; id := "field_30Input";
     name := "shippingAddress.customFields.field_30"; value := "";
     readOnly := false; backgroundColor := ""; cursor := "";
     sanitization := numberSanitization |}.

(** One input that carries both the id of the VAT input and the name of
    the company input. *)
Definition vatAndCompanyInput : Element :=
  {| tagName := "input"; id := "field_30Input"; name := "company";
     value := ""; readOnly := false; backgroundColor := ""; cursor := "";
     sanitization := textSanitization |}.

(** The company input as the checkout renders it, a text input. *)
Definition companyInput : Element :=
  {| tagName := "input"; id := "companyInput";
     name := "shippingAddress.company"; value := "Old name";
     readOnly := false; backgroundColor := ""; cursor := "";
     sanitization := textSanitization |}.

Definition blankWindow : Window :=
  {| document := []; timers := ∅; nextTimerId := 1 |}.

(** A window on which timer 1 polls with the given resolved values. *)
Definition pollingWindow (d : list Element) (companyName companyVat : string)
  : Window :=
  {| document := d;
     timers := {[ 1 := {| capturedCompanyName := companyName;
                          capturedCompanyVat := companyVat;
                          delay := 300 |} ]};
     nextTimerId := 2 |}.

End DomSyncSpec.

(** ** Vocabulary of the further properties *)

Module FieldPatchMoreSpec.
Import Sdk FieldPatchSpec.

(** The fields the billing patcher relaxes, and those the shipping patcher
    relaxes. *)
Definition billing_alias (f : FormField) : Prop :=
  company_alias f ∨ vat_alias f.

Definition shipping_alias (f : FormField) : Prop :=
  shipping_company_alias f ∨ vat_alias f.

(** The tests of the two patchers, [isPivaField || isCompanyField]. *)
Definition relaxed_by_billing (field : FormField) : bool :=
  Js.strict_eq (name field)
               ("field_" +:+ mtxConfig.AddressCustomFields.pIvaID)
  || Js.strict_eq (name field)
       ("customField[" +:+ mtxConfig.AddressCustomFields.pIvaID +:+ "]")
  || Js.strict_eq (id field) mtxConfig.AddressCustomFields.pIvaID
  || (Js.strict_eq (name field) "company"
      || Js.strict_eq (name field) "billingAddress.company"
      || Js.strict_eq (name field) "shippingAddress.company"
      || Js.strict_eq (id field) "company").

Definition relaxed_by_shipping (field : FormField) : bool :=
  Js.strict_eq (name field)
               ("field_" +:+ mtxConfig.AddressCustomFields.pIvaID)
  || Js.strict_eq (name field)
       ("customField[" +:+ mtxConfig.AddressCustomFields.pIvaID +:+ "]")
  || Js.strict_eq (id field) mtxConfig.AddressCustomFields.pIvaID
  || (Js.strict_eq (name field) "company"
      || Js.strict_eq (name field) "shippingAddress.company"
      || Js.strict_eq (id field) "company").

(** [g] is [f], except that a field under [alias] may differ in whether it
    is required. *)
Definition same_up_to_relaxed (alias : FormField -> Prop)
    (f g : FormField) : Prop :=
  (alias f -> not_required g = not_required f) ∧ (¬ alias f -> g = f).

(** Two store configurations of the form fields, for the examples: they
    differ in whether the company and the VAT number are required. *)
Definition strictStore (_ : option string) : list FormField :=
  [textField "firstName" "field_4" true;
   textField "company" "field_5" true;
   textField "field_30" "field_30" true].

Definition laxStore (_ : option string) : list FormField :=
  [textField "firstName" "field_4" true;
   textField "company" "field_5" false;
   textField "field_30" "field_30" false].

End FieldPatchMoreSpec.

(** * Properties *)

(** ** JavaScript values *)

Module JsFacts.

Lemma strict_eq_true (a b : string) : Js.strict_eq a b = true ↔ a = b.
Proof. unfold Js.strict_eq. apply bool_decide_eq_true. Qed.

Lemma strict_eq_false (a b : string) : Js.strict_eq a b = false ↔ a ≠ b.
Proof. unfold Js.strict_eq. apply bool_decide_eq_false. Qed.

Lemma truthy_string_true (s : string) : Js.truthy_string s = true ↔ s ≠ "".
Proof.
  unfold Js.truthy_string. rewrite negb_true_iff. apply bool_decide_eq_false.
Qed.

Lemma truthy_string_false (s : string) : Js.truthy_string s = false ↔ s = "".
Proof.
  unfold Js.truthy_string. rewrite negb_false_iff. apply bool_decide_eq_true.
Qed.

Lemma truthy_present (v : option string) :
  Js.truthy v = true ↔ ∃ s, v = Some s ∧ s ≠ "".
Proof.
  destruct v as [s|]; simpl.
  - rewrite truthy_string_true. split.
    + intros H. exists s. done.
    + intros (s' & [= <-] & H). done.
  - split; [done | intros (s & [=] & _)].
Qed.

Lemma or_literal_some (s b : string) :
  Js.or_literal (Some s) b = if decide (s = "") then b else s.
Proof.
  simpl. destruct (Js.truthy_string s) eqn:E.
  - apply truthy_string_true in E. by rewrite decide_False.
  - apply truthy_string_false in E. by rewrite decide_True.
Qed.

End JsFacts.

(** ** Field-requirement patchers *)

Module FieldPatchFacts.
Import Sdk FieldPatch FieldPatchSpec.

(** The test of the billing patcher is the disjunction of the aliases. *)
Lemma billing_test (f : FormField) :
  (Js.strict_eq (name f) ("field_" +:+ mtxConfig.AddressCustomFields.pIvaID)
   || Js.strict_eq (name f)
        ("customField[" +:+ mtxConfig.AddressCustomFields.pIvaID +:+ "]")
   || Js.strict_eq (id f) mtxConfig.AddressCustomFields.pIvaID
   || (Js.strict_eq (name f) "company"
       || Js.strict_eq (name f) "billingAddress.company"
       || Js.strict_eq (name f) "shippingAddress.company"
       || Js.strict_eq (id f) "company")) = true
  ↔ company_alias f ∨ vat_alias f.
Proof.
  unfold company_alias, vat_alias.
  rewrite !orb_true_iff, !JsFacts.strict_eq_true. tauto.
Qed.

(** The test of the shipping patcher leaves the billing name out. *)
Lemma shipping_test (f : FormField) :
  (Js.strict_eq (name f) ("field_" +:+ mtxConfig.AddressCustomFields.pIvaID)
   || Js.strict_eq (name f)
        ("customField[" +:+ mtxConfig.AddressCustomFields.pIvaID +:+ "]")
   || Js.strict_eq (id f) mtxConfig.AddressCustomFields.pIvaID
   || (Js.strict_eq (name f) "company"
       || Js.strict_eq (name f) "shippingAddress.company"
       || Js.strict_eq (id f) "company")) = true
  ↔ shipping_company_alias f ∨ vat_alias f.
Proof.
  unfold shipping_company_alias, vat_alias.
  rewrite !orb_true_iff, !JsFacts.strict_eq_true. tauto.
Qed.

(** A map that patches by a test relaxes every list, one field for one. *)
Lemma map_by_test_relaxes (alias : FormField -> Prop)
    (test : FormField -> bool) (fields : list FormField) :
  (∀ f, test f = true ↔ alias f) ->
  Forall2 (fun f g => (alias f -> g = not_required f) ∧ (¬ alias f -> g = f))
          fields
          ((fun f => if test f then not_required f else f) <$> fields).
Proof.
  intros Htest. induction fields as [|f fields IH]; simpl.
  - constructor.
  - constructor; [|exact IH].
    destruct (test f) eqn:E.
    + split; [done|]. intros Hn. destruct Hn. by apply Htest.
    + split; [|done]. intros Ha. apply Htest in Ha. congruence.
Qed.

(** C1, as the code has it. Both patchers return the fields of [getFields]
    one for one and in the same order (so the length is the same), every
    field that matches a VAT alias or a company alias no longer required
    and otherwise identical, every other field unchanged. The billing
    patcher knows the company under the names 'company',
    'billingAddress.company', 'shippingAddress.company' and the id
    'company'; the shipping patcher under 'company',
    'shippingAddress.company' and the id 'company' only. *)
Theorem patchers_relax_company_and_vat :
  relaxes (fun f => company_alias f ∨ vat_alias f) getFieldsWithPivaReadonly
  ∧ relaxes (fun f => shipping_company_alias f ∨ vat_alias f)
            getFieldsWithPivaRequired.
Proof.
  split; intros getFields countryCode.
  - apply (map_by_test_relaxes _ _ _ billing_test).
  - apply (map_by_test_relaxes _ _ _ shipping_test).
Qed.

(** C1 as stated fails for the shipping patcher: a required field named
    'billingAddress.company' matches a company alias and comes back still
    required. *)
Lemma shipping_patcher_keeps_billing_company :
  ¬ relaxes (fun f => company_alias f ∨ vat_alias f) getFieldsWithPivaRequired.
Proof.
  intros H.
  specialize (H (fun _ => [billingCompanyField]) None).
  apply Forall2_cons_1 in H as [[Hreq _] _].
  assert (Ha : company_alias billingCompanyField ∨ vat_alias billingCompanyField).
  { left. right. left. reflexivity. }
  specialize (Hreq Ha). discriminate Hreq.
Qed.

Example billing_patcher_on_sample :
  getFieldsWithPivaReadonly
    (fun _ => [textField "firstName" "field_4" true;
               textField "billingAddress.company" "field_5" true;
               textField "field_30" "field_30" true;
               textField "vat" "30" true])
    (Some "IT")
  = [textField "firstName" "field_4" true;
     textField "billingAddress.company" "field_5" false;
     textField "field_30" "field_30" false;
     textField "vat" "30" false].
Proof. reflexivity. Qed.

Example shipping_patcher_on_sample :
  getFieldsWithPivaRequired
    (fun _ => [textField "firstName" "field_4" true;
               textField "billingAddress.company" "field_5" true;
               textField "shippingAddress.company" "field_5" true;
               textField "customField[30]" "field_30" true])
    None
  = [textField "firstName" "field_4" true;
     textField "billingAddress.company" "field_5" true;
     textField "shippingAddress.company" "field_5" false;
     textField "customField[30]" "field_30" false].
Proof. reflexivity. Qed.

End FieldPatchFacts.

(** ** Company name and VAT number *)

Module CompanyInfoFacts.
Import Sdk CompanyInfo CompanyInfoSpec.

Lemma not_present_falsy (v : option string) :
  Js.truthy v = false ↔ ¬ present v.
Proof.
  unfold present. rewrite <- JsFacts.truthy_present.
  destruct (Js.truthy v); split; intros H; done.
Qed.

(** The [||] chain picks the first of its operands that is present. *)
Lemma or_chain_by_precedence (g a e : option string) :
  by_precedence g a e (Js.or_literal (Js.or (Js.or g a) e) "").
Proof.
  unfold Js.or.
  destruct (Js.truthy g) eqn:Eg.
  - rewrite Eg. apply JsFacts.truthy_present in Eg as (s & -> & Hs).
    simpl. apply JsFacts.truthy_string_true in Hs as Hs'. rewrite Hs'.
    by apply from_group.
  - apply not_present_falsy in Eg as Hg.
    destruct (Js.truthy a) eqn:Ea.
    + apply JsFacts.truthy_present in Ea as (s & -> & Hs).
      simpl. apply JsFacts.truthy_string_true in Hs as Hs'. rewrite Hs'.
      by apply from_stored.
    + apply not_present_falsy in Ea as Ha.
      destruct e as [s|]; simpl.
      * destruct (Js.truthy_string s) eqn:Es.
        -- apply JsFacts.truthy_string_true in Es. by apply from_edited.
        -- apply from_nothing; try done.
           apply not_present_falsy. done.
      * apply from_nothing; try done. by intros (s & [=] & _).
Qed.

(** The precedence names one result. *)
Lemma by_precedence_functional (g a e : option string) (s t : string) :
  by_precedence g a e s -> by_precedence g a e t -> s = t.
Proof.
  intros Hs Ht; destruct Hs, Ht; unfold present in *; simplify_eq;
    try done;
    match goal with
    | H : ¬ (∃ _, Some ?s = Some _ ∧ _) |- _ => destruct H; by exists s
    end.
Qed.

Lemma companyName_chain (customer : option Customer)
    (editedAddress : option Address) :
  companyName customer editedAddress
  = Js.or_literal
      (Js.or (Js.or (groupNameOf customer) (firstAddressCompany customer))
             (editedCompany editedAddress))
      "".
Proof.
  unfold companyName, groupNameOf, firstAddressCompany, editedCompany.
  destruct customer as [c|]; simpl; [|done].
  destruct (customerGroup c); destruct (addresses c); reflexivity.
Qed.

(** C4. The company name is the customer-group name if present, otherwise
    the company of the first stored address, otherwise the company of the
    address being edited, otherwise the empty string; and a customer whose
    group is named "Acme" resolves to "Acme" whatever the stored addresses
    and the edited address hold. *)
Theorem companyName_by_precedence :
  (∀ customer editedAddress,
     by_precedence (groupNameOf customer) (firstAddressCompany customer)
                   (editedCompany editedAddress)
                   (companyName customer editedAddress))
  ∧ (∀ customer group editedAddress,
       customerGroup customer = Some group ->
       groupName group = "Acme" ->
       companyName (Some customer) editedAddress = "Acme").
Proof.
  split.
  - intros customer editedAddress. rewrite companyName_chain.
    apply or_chain_by_precedence.
  - intros customer group editedAddress Hg Hn.
    apply (by_precedence_functional
             (groupNameOf (Some customer))
             (firstAddressCompany (Some customer))
             (editedCompany editedAddress)).
    + rewrite companyName_chain. apply or_chain_by_precedence.
    + apply from_group; [|done]. simpl. rewrite Hg. simpl. by rewrite Hn.
Qed.

Example companyName_group_wins :
  companyName (Some (customerOf (Some "Acme") [addressOf "Stored"]))
              (Some (addressOf "Edited")) = "Acme".
Proof. reflexivity. Qed.

Example companyName_empty_group_falls_through :
  companyName (Some (customerOf (Some "") [addressOf "Stored"]))
              (Some (addressOf "Edited")) = "Stored".
Proof. reflexivity. Qed.

Example companyName_edited_address_last :
  companyName (Some (customerOf None [])) (Some (addressOf "Edited"))
  = "Edited".
Proof. reflexivity. Qed.

Example companyName_nothing :
  companyName None None = "".
Proof. reflexivity. Qed.

(** Runs the sequencing of statements as far as the data allows. *)
Ltac run_eff :=
  cbv beta iota zeta
      delta [try_catch mbind eff_bind bind ret throw
             await_fetch await_json get_vatNumber negb].

(** [loadCompanyVat], case by case on what the network gives. *)
Lemma loadCompanyVat_cases (fetch : Request -> FetchOutcome)
    (customerId : Z) (st : State) :
  loadCompanyVat fetch customerId st
  = match fetch (companyDataRequest customerId) with
    | Rejected => console_error logMessage Js.NetworkError st
    | Responded res =>
        if ok res
        then match json res with
             | inl e => console_error logMessage e st
             | inr Js.JNull => console_error logMessage Js.TypeError st
             | inr data =>
                 match vatNumberField data with
                 | Some v =>
                     if Js.truthy_value (Some v) then setCompanyVat v st
                     else (Normal tt, st)
                 | None => (Normal tt, st)
                 end
             end
        else console_error logMessage
               (Js.HttpError ("HTTP " +:+ pretty (status res))) st
    end.
Proof.
  unfold loadCompanyVat. run_eff.
  change {| url := _; credentials := _ |} with (companyDataRequest customerId).
  destruct (fetch (companyDataRequest customerId)) as [|res]; [reflexivity|].
  run_eff. destruct (ok res); run_eff; [|reflexivity].
  destruct (json res) as [e|data]; [reflexivity|].
  destruct data; try reflexivity.
  run_eff. unfold vatNumberField.
  destruct (Js.own_property "vatNumber" members) as [v|]; [|reflexivity].
  run_eff. destruct (Js.truthy_value (Some v)); reflexivity.
Qed.

Lemma ok_2xx (res : Response) :
  ok res = true ↔ (200 ≤ status res ≤ 299)%nat.
Proof.
  unfold ok. rewrite andb_true_iff, !Nat.leb_le. done.
Qed.

(** C5. A successful response whose body carries [vatNumber: "IT123"]
    makes the resolved VAT number "IT123". When the fetch fails, by a
    rejected request or by a status outside 200-299, the error is logged
    once and the resolved VAT number is kept, so it is still the initial
    empty string when nothing was resolved before. Whatever the network
    gives, [loadCompanyVat] and the effect that calls it complete normally:
    nothing is thrown to the caller. *)
Theorem loadCompanyVat_resolves_or_keeps :
  (∀ fetch customerId st res members,
     fetch (companyDataRequest customerId) = Responded res ->
     (200 ≤ status res ≤ 299)%nat ->
     json res = inr (Js.JObject members) ->
     Js.own_property "vatNumber" members = Some (Js.JString "IT123") ->
     loadCompanyVat fetch customerId st
     = (Normal tt,
        {| companyVat := Js.JString "IT123"; console := console st |}))
  ∧ (∀ fetch customerId st,
       (fetch (companyDataRequest customerId) = Rejected
        ∨ ∃ res, fetch (companyDataRequest customerId) = Responded res
                 ∧ ¬ (200 ≤ status res ≤ 299)%nat) ->
       ∃ error,
         loadCompanyVat fetch customerId st
         = (Normal tt,
            {| companyVat := companyVat st;
               console := console st ++ [(logMessage, error)] |}))
  ∧ (∀ fetch customerId,
       (fetch (companyDataRequest customerId) = Rejected
        ∨ ∃ res, fetch (companyDataRequest customerId) = Responded res
                 ∧ ¬ (200 ≤ status res ≤ 299)%nat) ->
       companyVat (loadCompanyVat fetch customerId initialState).2
       = Js.JString "")
  ∧ (∀ fetch customerId st,
       (loadCompanyVat fetch customerId st).1 = Normal tt)
  ∧ (∀ fetch customerId st,
       (companyVatEffect fetch customerId st).1 = Normal tt).
Proof.
  assert (Hfail : ∀ fetch customerId st,
    (fetch (companyDataRequest customerId) = Rejected
     ∨ ∃ res, fetch (companyDataRequest customerId) = Responded res
              ∧ ¬ (200 ≤ status res ≤ 299)%nat) ->
    ∃ error,
      loadCompanyVat fetch customerId st
      = (Normal tt,
         {| companyVat := companyVat st;
            console := console st ++ [(logMessage, error)] |})).
  { intros fetch customerId st [H | (res & H & Hst)];
      rewrite loadCompanyVat_cases, H.
    - by eexists.
    - rewrite <- ok_2xx in Hst. apply not_true_is_false in Hst.
      rewrite Hst. by eexists. }
  assert (Hnormal : ∀ fetch customerId st,
    (loadCompanyVat fetch customerId st).1 = Normal tt).
  { intros fetch customerId st. rewrite loadCompanyVat_cases.
    destruct (fetch _) as [|res]; [reflexivity|].
    destruct (ok res); [|reflexivity].
    destruct (json res) as [e|data]; [reflexivity|].
    destruct data; try reflexivity. unfold vatNumberField.
    destruct (Js.own_property _ _) as [v|]; [|reflexivity].
    destruct (Js.truthy_value (Some v)); reflexivity. }
  repeat split.
  - intros fetch customerId st res members Hf Hst Hj Hv.
    apply ok_2xx in Hst.
    rewrite loadCompanyVat_cases, Hf, Hst, Hj. simpl. rewrite Hv.
    reflexivity.
  - exact Hfail.
  - intros fetch customerId H.
    destruct (Hfail fetch customerId initialState H) as [error ->].
    reflexivity.
  - exact Hnormal.
  - intros fetch customerId st. unfold companyVatEffect.
    destruct customerId as [n|]; [|reflexivity].
    destruct (n =? 0)%Z; [reflexivity|]. apply Hnormal.
Qed.

Example loadCompanyVat_IT123 :
  loadCompanyVat
    (answering 200 (inr (Js.JObject [("vatNumber", Js.JString "IT123")])))
    7 initialState
  = (Normal tt, {| companyVat := Js.JString "IT123"; console := [] |}).
Proof. reflexivity. Qed.

Example loadCompanyVat_404 :
  loadCompanyVat
    (answering 404 (inr (Js.JObject [("vatNumber", Js.JString "IT123")])))
    7 initialState
  = (Normal tt,
     {| companyVat := Js.JString "";
        console := [(logMessage, Js.HttpError "HTTP 404")] |}).
Proof. vm_compute. reflexivity. Qed.

Example loadCompanyVat_rejected :
  loadCompanyVat (fun _ => Rejected) 7 initialState
  = (Normal tt,
     {| companyVat := Js.JString "";
        console := [(logMessage, Js.NetworkError)] |}).
Proof. reflexivity. Qed.

Example loadCompanyVat_not_json :
  loadCompanyVat (answering 200 (inl Js.SyntaxError)) 7 initialState
  = (Normal tt,
     {| companyVat := Js.JString "";
        console := [(logMessage, Js.SyntaxError)] |}).
Proof. reflexivity. Qed.

Example loadCompanyVat_null_body :
  loadCompanyVat (answering 200 (inr Js.JNull)) 7 initialState
  = (Normal tt,
     {| companyVat := Js.JString "";
        console := [(logMessage, Js.TypeError)] |}).
Proof. reflexivity. Qed.

Example companyDataRequest_7 :
  companyDataRequest 7
  = {| url := "https://www.bigcommerceconnector.com/gem/getCompanyData.php?customerId=7";
       credentials := "include" |}.
Proof. vm_compute. reflexivity. Qed.

Example companyVatEffect_guest :
  companyVatEffect (fun _ => Rejected) (Some 0%Z) initialState
  = (Normal tt, initialState).
Proof. reflexivity. Qed.

(** C9, as the code has it. A successful response (2xx, valid JSON) whose
    body is not [null] and has no truthy [vatNumber] (absent, null, empty,
    zero or false) leaves the state as it was: the VAT number is kept and
    nothing is logged. *)
Theorem falsy_vatNumber_is_silent (data : Js.JsonValue) :
  data ≠ Js.JNull ->
  Js.truthy_value (vatNumberField data) = false ->
  silent_on data.
Proof.
  intros Hnull Hfalsy fetch customerId st res Hf Hok Hj.
  rewrite loadCompanyVat_cases, Hf, Hok, Hj.
  destruct data; try done. unfold vatNumberField in *.
  destruct (Js.own_property _ _) as [v|]; [|done].
  by rewrite Hfalsy.
Qed.

Lemma falsy_vatNumber_is_silent_witness :
  Js.JObject [("vatNumber", Js.JString "")] ≠ Js.JNull
  ∧ Js.truthy_value
      (vatNumberField (Js.JObject [("vatNumber", Js.JString "")])) = false
  ∧ silent_on (Js.JObject [("vatNumber", Js.JString "")]).
Proof.
  split; [discriminate|]. split; [reflexivity|].
  apply (falsy_vatNumber_is_silent (Js.JObject [("vatNumber", Js.JString "")]));
    [discriminate | reflexivity].
Defined.

(** C9 as stated fails on the body [null]: it is valid JSON without a
    truthy [vatNumber], yet reading the field throws, and the error is
    caught and logged. *)
Lemma null_body_is_logged :
  Js.truthy_value (vatNumberField Js.JNull) = false
  ∧ ¬ silent_on Js.JNull.
Proof.
  split; [reflexivity|]. intros H.
  specialize (H (fun _ => Responded {| status := 200; json := inr Js.JNull |})
                7%Z initialState _ eq_refl eq_refl eq_refl).
  discriminate H.
Qed.

End CompanyInfoFacts.

(** ** Single- or multi-shipping *)

Module ShippingModeFacts.
Import ShippingMode ShippingModeSpec.

(** [config?.checkoutSettings?.hasMultiShippingEnabled ?? false] is true
    exactly when the flag is there and on. *)
Lemma flag_or_false (config : option StoreConfig) :
  default false
    (c ← config; s ← checkoutSettings c; hasMultiShippingEnabled s)
  = flagEnabled config.
Proof. destruct config as [[[[[[|]|]]|]]|]; reflexivity. Qed.

(** C6, as the code has it. Whenever the effect runs with a truthy render
    timestamp, then for every cart, consignment list and configuration the
    form renders the multi-shipping form exactly when the multi-shipping
    flag is enabled, cart and consignments are there, and
    [isUsingMultiShipping] holds of the consignments and the cart's line
    items; with the flag disabled it renders the single-shipping form
    whatever the consignments are. Without a render timestamp (absent or
    0) the effect resolves nothing and the form renders by the flag the
    parent holds. *)
Theorem multi_shipping_iff_flag_and_split
    (Consignment LineItemMap : Type)
    (isUsingMultiShipping : list Consignment -> LineItemMap -> bool)
    (timestamp : option Z) (config : option StoreConfig)
    (cart : option (Cart LineItemMap))
    (consignments : option (list Consignment)) (parentFlag : bool) :
  truthy_timestamp timestamp = true ->
  (render (multiShippingEffect isUsingMultiShipping
             timestamp config cart consignments parentFlag)
   = MultiShippingForm
   ↔ flagEnabled config = true
     ∧ ∃ c cs, cart = Some c ∧ consignments = Some cs
               ∧ isUsingMultiShipping cs (lineItems c) = true)
  ∧ (render (multiShippingEffect isUsingMultiShipping
               timestamp config cart consignments parentFlag)
     = SingleShippingForm
     ↔ ¬ (flagEnabled config = true
          ∧ ∃ c cs, cart = Some c ∧ consignments = Some cs
                    ∧ isUsingMultiShipping cs (lineItems c) = true))
  ∧ (flagEnabled config = false ->
     render (multiShippingEffect isUsingMultiShipping
               timestamp config cart consignments parentFlag)
     = SingleShippingForm)
  ∧ (∀ timestamp',
       truthy_timestamp timestamp' = false ->
       render (multiShippingEffect isUsingMultiShipping
                 timestamp' config cart consignments parentFlag)
       = render parentFlag).
Proof.
  intros Hts.
  assert (Hmode :
            multiShippingEffect isUsingMultiShipping
              timestamp config cart consignments parentFlag = true
            ↔ flagEnabled config = true
              ∧ ∃ c cs, cart = Some c ∧ consignments = Some cs
                        ∧ isUsingMultiShipping cs (lineItems c) = true).
  { unfold multiShippingEffect, resolvedMultiShippingMode.
    rewrite Hts, flag_or_false.
    destruct cart as [c|], consignments as [cs|].
    - rewrite andb_true_iff. split.
      + intros [Hflag Husing]. eauto 6.
      + intros (Hflag & c' & cs' & [= <-] & [= <-] & Husing). done.
    - split; [done | by intros (_ & ? & ? & _ & [=] & _)].
    - split; [done | by intros (_ & ? & ? & [=] & _)].
    - split; [done | by intros (_ & ? & ? & [=] & _)]. }
  split; [|split; [|split]].
  - rewrite <- Hmode. unfold render.
    by destruct (multiShippingEffect _ _ _ _ _ _).
  - rewrite <- Hmode. unfold render.
    by destruct (multiShippingEffect _ _ _ _ _ _).
  - intros Hoff. unfold multiShippingEffect, resolvedMultiShippingMode.
    rewrite Hts, flag_or_false, Hoff. by destruct cart, consignments.
  - intros timestamp' Hts'. unfold multiShippingEffect. by rewrite Hts'.
Qed.

Lemma multi_shipping_iff_flag_and_split_witness :
  truthy_timestamp (Some 1700000000000%Z) = true
  ∧ render
      (multiShippingEffect
         (fun (consignments : list nat) (_ : unit) =>
            bool_decide (1 < length consignments)%nat)
         (Some 1700000000000%Z)
         (Some {| checkoutSettings :=
                    Some {| hasMultiShippingEnabled := Some false |} |})
         (Some {| lineItems := tt |}) (Some [1; 2]) true)
    = SingleShippingForm.
Proof.
  split; [reflexivity|].
  apply (multi_shipping_iff_flag_and_split nat unit
           (fun (consignments : list nat) (_ : unit) =>
              bool_decide (1 < length consignments)%nat)
           (Some 1700000000000%Z)
           (Some {| checkoutSettings :=
                      Some {| hasMultiShippingEnabled := Some false |} |})
           (Some {| lineItems := tt |}) (Some [1; 2]) true);
    reflexivity.
Defined.

(** C6 as stated fails when the effect runs without a render timestamp:
    with the flag disabled and the parent's flag set, the form renders
    the multi-shipping form. *)
Lemma parent_flag_rules_without_timestamp :
  ¬ (∀ (isUsingMultiShipping : list nat -> unit -> bool)
       timestamp config cart consignments parentFlag,
       flagEnabled config = false ->
       render (multiShippingEffect isUsingMultiShipping
                 timestamp config cart consignments parentFlag)
       = SingleShippingForm).
Proof.
  intros H.
  specialize
    (H (fun _ _ => true) None
       (Some {| checkoutSettings :=
                  Some {| hasMultiShippingEnabled := Some false |} |})
       (Some {| lineItems := tt |}) (Some [1; 2]) true eq_refl).
  discriminate H.
Qed.

(** The mode the effect computes, for a cart and consignments that are
    there. *)
Lemma resolvedMultiShippingMode_result (Consignment LineItemMap : Type)
    (isUsingMultiShipping : list Consignment -> LineItemMap -> bool)
    (config : option StoreConfig) (cart : Cart LineItemMap)
    (consignments : list Consignment) :
  resolvedMultiShippingMode isUsingMultiShipping
    config (Some cart) (Some consignments)
  = flagEnabled config
    && isUsingMultiShipping consignments (lineItems cart).
Proof. unfold resolvedMultiShippingMode. by rewrite flag_or_false. Qed.

Example flag_off_single_shipping :
  render
    (multiShippingEffect (fun (consignments : list nat) (_ : unit) => true)
       (Some 1700000000000%Z)
       (Some {| checkoutSettings :=
                  Some {| hasMultiShippingEnabled := Some false |} |})
       (Some {| lineItems := tt |}) (Some [1; 2]) true)
  = SingleShippingForm.
Proof. reflexivity. Qed.

Example flag_on_split_multi_shipping :
  render
    (multiShippingEffect
       (fun (consignments : list nat) (_ : unit) =>
          bool_decide (1 < length consignments)%nat)
       (Some 1700000000000%Z)
       (Some {| checkoutSettings :=
                  Some {| hasMultiShippingEnabled := Some true |} |})
       (Some {| lineItems := tt |}) (Some [1; 2]) false)
  = MultiShippingForm.
Proof. reflexivity. Qed.

End ShippingModeFacts.

(** ** The address handed to the single-shipping form *)

Module AddressPatchFacts.
Import Sdk AddressPatch AddressPatchSpec.

Lemma customFields_patched (companyVat : string) (fields : list CustomField) :
  Forall2 (vat_written companyVat) fields
    ((fun customField =>
        if Js.strict_eq (fieldId customField) pIvaCustomFieldId
        then {| fieldId := fieldId customField;
                fieldValue := FVString companyVat |}
        else customField) <$> fields).
Proof.
  induction fields as [|c fields IH]; simpl; constructor; [|exact IH].
  unfold vat_written.
  destruct (Js.strict_eq (fieldId c) pIvaCustomFieldId) eqn:E.
  - apply JsFacts.strict_eq_true in E. split; [done | by intros []].
  - apply JsFacts.strict_eq_false in E. split; [by intros ? | done].
Qed.

(** C7. An undefined shipping address stays undefined. A defined one is
    handed on with every attribute as it was, except [company], which is
    the resolved company name unless that is empty (then the original
    company stays), and, when [customFields] is an array, the [fieldValue]
    of each entry whose [fieldId] is 'field_<pIvaID>', which is the
    resolved VAT number; the other entries are unchanged, in the same
    order, and a [customFields] that is not an array is left as it is. *)
Theorem patchedShippingAddress_frame (companyName companyVat : string) :
  patchedShippingAddress companyName companyVat None = None
  ∧ ∀ a, ∃ b,
      patchedShippingAddress companyName companyVat (Some a) = Some b
      ∧ same_elsewhere a b
      ∧ company b = (if decide (companyName = "") then company a
                     else companyName)
      ∧ match customFields a with
        | Some fields =>
            ∃ fields', customFields b = Some fields'
                       ∧ Forall2 (vat_written companyVat) fields fields'
        | None => customFields b = None
        end.
Proof.
  split; [reflexivity|]. intros a. eexists. split; [reflexivity|].
  split; [by repeat split|]. split.
  - apply JsFacts.or_literal_some.
  - cbn [customFields]. destruct (customFields a) as [fields|]; [|done].
    eexists. split; [reflexivity|]. apply customFields_patched.
Qed.

Example patchedShippingAddress_on_sample :
  (fun a => (company a, customFields a))
    <$> patchedShippingAddress "Acme" "IT123"
          (Some {| firstName := "Ada"; lastName := "Rossi";
                   company := "Old name"; address1 := "Via Roma 1";
                   address2 := ""; city := "Napoli";
                   stateOrProvince := "NA"; stateOrProvinceCode := "NA";
                   country := "Italy"; countryCode := "IT";
                   postalCode := "80100"; phone := "";
                   customFields :=
                     Some [ {| fieldId := "field_30";
                               fieldValue := FVString "" |};
                            {| fieldId := "field_32";
                               fieldValue := FVString "SDI" |} ];
                   shouldSaveAddress := Some true |})
  = Some ("Acme",
          Some [ {| fieldId := "field_30"; fieldValue := FVString "IT123" |};
                 {| fieldId := "field_32"; fieldValue := FVString "SDI" |} ]).
Proof. reflexivity. Qed.

End AddressPatchFacts.

(** ** The document and the timers *)

Module DomSyncFacts.
Import DomSync DomSyncSpec.

(** *** Lists: finding an element after an update in place *)

Lemma list_find_alter_same {A} (P : A -> Prop) `{!∀ x, Decision (P x)}
    (f : A -> A) (i : nat) (l : list A) :
  (∀ x, P (f x) ↔ P x) ->
  fst <$> list_find P (alter f i l) = fst <$> list_find P l.
Proof.
  intros Hf. revert i. induction l as [|a l IH]; intros i; [done|].
  destruct i as [|i]; simpl.
  - destruct (decide (P (f a))) as [Hy|Hy], (decide (P a)) as [Hx|Hx];
      [done | destruct Hx; by apply Hf | destruct Hy; by apply Hf | done].
  - destruct (decide (P a)); [done|].
    specialize (IH i). change (alter f i l) with (list_alter f i l) in IH.
    destruct (list_find P (list_alter f i l)) as [[]|],
             (list_find P l) as [[]|]; simpl in *; congruence.
Qed.

Lemma list_find_index_lookup {A} (P : A -> Prop) `{!∀ x, Decision (P x)}
    (l : list A) (i : nat) :
  fst <$> list_find P l = Some i -> ∃ x, l !! i = Some x ∧ P x.
Proof.
  intros Hfind. apply fmap_Some in Hfind as ([j x] & Hfind & ->).
  apply list_find_Some in Hfind as (Hl & HP & _). by exists x.
Qed.

(** *** What a block of the tick does *)

Lemma aligned_test (resolved : string) (e : Element) :
  Js.truthy_string resolved && negb (Js.strict_eq (value e) resolved) = true
  ↔ resolved ≠ "" ∧ value e ≠ resolved.
Proof.
  rewrite andb_true_iff, negb_true_iff, JsFacts.truthy_string_true,
    JsFacts.strict_eq_false. done.
Qed.

Lemma lock_document (resolved : string) (ref : nat) (w : Window) :
  document (lock resolved ref w) = alter (aligned resolved) ref (document w).
Proof.
  apply list_eq. intros j. unfold lock, value_of.
  cbn [assign document]. rewrite list_lookup_alter_eq.
  destruct (decide (ref = j)) as [<-|Hne].
  - rewrite list_lookup_alter_eq.
    destruct (document w !! ref) as [e|] eqn:He;
      cbn [fmap option_fmap option_map from_option Datatypes.id
           value set_readOnly].
    + destruct (Js.truthy_string resolved
                && negb (Js.strict_eq (value e) resolved)) eqn:Et;
        cbn [assign document]; rewrite !list_lookup_alter_eq, He;
        cbn; f_equal; unfold aligned.
      * apply aligned_test in Et. by rewrite decide_True.
      * apply not_true_iff_false in Et. rewrite aligned_test in Et.
        by rewrite decide_False.
    + destruct (Js.truthy_string resolved
                && negb (Js.strict_eq "" resolved));
        cbn [assign document]; by rewrite !list_lookup_alter_eq, He.
  - destruct (Js.truthy_string resolved && _);
      cbn [assign document]; by rewrite !list_lookup_alter_ne.
Qed.

Lemma lock_timers (resolved : string) (ref : nat) (w : Window) :
  timers (lock resolved ref w) = timers w
  ∧ nextTimerId (lock resolved ref w) = nextTimerId w.
Proof.
  unfold lock.
  by destruct (Js.truthy_string resolved && negb (Js.strict_eq _ resolved)).
Qed.

Lemma aligned_attributes (resolved : string) (e : Element) :
  tagName (aligned resolved e) = tagName e
  ∧ id (aligned resolved e) = id e
  ∧ name (aligned resolved e) = name e.
Proof. done. Qed.

Lemma getElementById_aligned (elementId resolved : string) (ref : nat)
    (d : list Element) :
  getElementById elementId (alter (aligned resolved) ref d)
  = getElementById elementId d.
Proof. unfold getElementById. by apply list_find_alter_same. Qed.

Lemma querySelector_aligned (names : list string) (resolved : string)
    (ref : nat) (d : list Element) :
  querySelector names (alter (aligned resolved) ref d) = querySelector names d.
Proof. unfold querySelector. by apply list_find_alter_same. Qed.

Lemma lock_found_document (resolved : string) (found : option nat)
    (w : Window) :
  document (lock_found resolved found w)
  = alter_found (aligned resolved) found (document w).
Proof. destruct found; [apply lock_document | done]. Qed.

Lemma lock_found_timers (resolved : string) (found : option nat)
    (w : Window) :
  timers (lock_found resolved found w) = timers w
  ∧ nextTimerId (lock_found resolved found w) = nextTimerId w.
Proof. destruct found; [apply lock_timers | done]. Qed.

Lemma querySelector_alter_found (names : list string) (resolved : string)
    (found : option nat) (d : list Element) :
  querySelector names (alter_found (aligned resolved) found d)
  = querySelector names d.
Proof. destruct found; [apply querySelector_aligned | done]. Qed.

(** The tick is two blocks and the test that ends the polling. *)
Lemma intervalCallback_blocks (companyName companyVat : string)
    (intervalId : nat) (w : Window) :
  intervalCallback companyName companyVat intervalId w
  = let pivaInput := getElementById pIvaInputId (document w) in
    let w1 := lock_found companyVat pivaInput w in
    let companyInput := querySelector companySelector (document w1) in
    let w2 := lock_found companyName companyInput w1 in
    if bool_decide (is_Some pivaInput) || bool_decide (is_Some companyInput)
    then clearInterval intervalId w2
    else w2.
Proof. reflexivity. Qed.

(** One tick, as a whole: the VAT input aligned, then the company input,
    and the timer cleared when one of them was found. *)
Lemma intervalCallback_result (companyName companyVat : string)
    (intervalId : nat) (w : Window) :
  intervalCallback companyName companyVat intervalId w
  = {| document :=
         alter_found (aligned companyName)
           (querySelector companySelector (document w))
           (alter_found (aligned companyVat)
              (getElementById pIvaInputId (document w)) (document w));
       timers :=
         if bool_decide (is_Some (getElementById pIvaInputId (document w)))
            || bool_decide
                 (is_Some (querySelector companySelector (document w)))
         then delete intervalId (timers w) else timers w;
       nextTimerId := nextTimerId w |}.
Proof.
  rewrite intervalCallback_blocks. cbv zeta.
  rewrite (lock_found_document companyVat), querySelector_alter_found.
  set (pivaInput := getElementById pIvaInputId (document w)).
  set (companyInput := querySelector companySelector (document w)).
  set (w1 := lock_found companyVat pivaInput w).
  set (w2 := lock_found companyName companyInput w1).
  assert (Hd : document w2
               = alter_found (aligned companyName) companyInput
                   (alter_found (aligned companyVat) pivaInput (document w))).
  { unfold w2, w1. by rewrite !lock_found_document. }
  assert (Ht : timers w2 = timers w ∧ nextTimerId w2 = nextTimerId w).
  { unfold w2, w1.
    destruct (lock_found_timers companyName companyInput
                (lock_found companyVat pivaInput w)) as [-> ->].
    apply lock_found_timers. }
  destruct Ht as [Ht Hn]. rewrite <- Hd, <- Ht, <- Hn.
  destruct (bool_decide (is_Some pivaInput)
            || bool_decide (is_Some companyInput)); by destruct w2.
Qed.


Lemma alter_found_lookup (f : Element -> Element) (found : option nat)
    (d : list Element) (ref : nat) (e : Element) :
  d !! ref = Some e ->
  alter_found f found d !! ref
  = Some (if decide (found = Some ref) then f e else e).
Proof.
  intros He. destruct found as [r|]; cbn [alter_found].
  - rewrite list_lookup_alter. destruct (decide (r = ref)) as [->|Hne].
    + rewrite He. by rewrite decide_True.
    + rewrite He. rewrite decide_False; [done | congruence].
  - rewrite He. by rewrite decide_False.
Qed.

(** The page after a tick, element by element. *)
Lemma intervalCallback_lookup (companyName companyVat : string)
    (intervalId : nat) (w : Window) (ref : nat) (e : Element) :
  document w !! ref = Some e ->
  document (intervalCallback companyName companyVat intervalId w) !! ref
  = Some (ticked companyName companyVat (document w) ref e).
Proof.
  intros He. rewrite intervalCallback_result. cbn [document].
  erewrite alter_found_lookup; [reflexivity|].
  by apply alter_found_lookup.
Qed.


Example tick_on_both_inputs :
  intervalCallback "Acme" "IT123" 1
    (pollingWindow [vatInput; companyInput] "Acme" "IT123")
  = {| document :=
         [ {| tagName := "input"; id := "field_30Input";
              name := "shippingAddress.customFields.field_30";
              value := "IT123"; readOnly := true;
              backgroundColor := "#f4f4f4"; cursor := "not-allowed";
              sanitization := textSanitization |};
           {| tagName := "input"; id := "companyInput";
              name := "shippingAddress.company";
              value := "Acme"; readOnly := true;
              backgroundColor := "#f4f4f4"; cursor := "not-allowed";
              sanitization := textSanitization |} ];
       timers := ∅;
       nextTimerId := 2 |}.
Proof. vm_compute. reflexivity. Qed.

Example tick_with_nothing_resolved :
  document (intervalCallback "" "" 1 (pollingWindow [companyInput] "" ""))
  = [ {| tagName := "input"; id := "companyInput";
         name := "shippingAddress.company";
         value := "Old name"; readOnly := true;
         backgroundColor := "#f4f4f4"; cursor := "not-allowed";
         sanitization := textSanitization |} ].
Proof. reflexivity. Qed.

Example tick_on_shared_input :
  document (intervalCallback "Acme" "IT123" 1
              (pollingWindow [vatAndCompanyInput] "Acme" "IT123"))
  = [ {| tagName := "input"; id := "field_30Input"; name := "company";
         value := "Acme"; readOnly := true;
         backgroundColor := "#f4f4f4"; cursor := "not-allowed";
         sanitization := textSanitization |} ].
Proof. reflexivity. Qed.

(** A text input drops the line break of a company name. *)
Example tick_on_text_input_strips_newline :
  value <$> document
              (intervalCallback ("Acme" +:+ String "010"%char "Inc") "" 1
                 (pollingWindow [companyInput]
                    ("Acme" +:+ String "010"%char "Inc") "")) !! 0
  = Some "AcmeInc".
Proof. reflexivity. Qed.

(** A number input stores the empty string for "IT123". *)
Example tick_on_number_input :
  document (intervalCallback "" "IT123" 1
              (pollingWindow [numberVatInput] "" "IT123"))
  = [ {| tagName := "input"; id := "field_30Input";
         name := "shippingAddress.customFields.field_30";
         value := ""; readOnly := true;
         backgroundColor := "#f4f4f4"; cursor := "not-allowed";
         sanitization := numberSanitization |} ].
Proof. reflexivity. Qed.

Lemma not_found_None (found : option nat) : ¬ is_Some found -> found = None.
Proof. intros H. by apply eq_None_not_Some. Qed.

(** A tick that finds neither input leaves the window as it is. *)
Lemma fire_nothing_found (i : nat) (w : Window) :
  ¬ vatInputFound w -> ¬ companyInputFound w -> fire i w = w.
Proof.
  unfold vatInputFound, companyInputFound. intros Hv Hc.
  apply not_found_None in Hv, Hc. unfold fire.
  destruct (timers w !! i) as [h|]; [|done].
  rewrite intervalCallback_result, Hv, Hc. by destruct w.
Qed.

(** A timer that is not registered does nothing when it comes due. *)
Lemma fire_unregistered (i : nat) (w : Window) :
  timers w !! i = None -> fire i w = w.
Proof. unfold fire. by intros ->. Qed.

(** C3, as the code has it. A tick of the registered timer ends the
    polling exactly when it found at least one of the two inputs, the VAT
    input by id or the company input by the selector; the polling goes on
    only while neither is found, and such a tick changes nothing. *)
Theorem tick_stops_when_one_input_found (i : nat) (w : Window)
    (h : Interval) :
  timers w !! i = Some h ->
  (stopped_by_tick i w ↔ vatInputFound w ∨ companyInputFound w)
  ∧ (¬ vatInputFound w -> ¬ companyInputFound w -> fire i w = w).
Proof.
  intros Hreg. split; [|apply fire_nothing_found].
  unfold stopped_by_tick, fire, vatInputFound, companyInputFound.
  rewrite Hreg, intervalCallback_result. cbn [timers].
  destruct (bool_decide _ || bool_decide _) eqn:E.
  - rewrite lookup_delete_eq.
    apply orb_true_iff in E. rewrite !bool_decide_eq_true in E. done.
  - rewrite Hreg.
    apply orb_false_iff in E. rewrite !bool_decide_eq_false in E.
    split; [done | tauto].
Qed.

Lemma tick_stops_when_one_input_found_witness :
  timers (pollingWindow [vatInput] "Acme" "IT123") !! 1
  = Some {| capturedCompanyName := "Acme"; capturedCompanyVat := "IT123";
            delay := 300 |}
  ∧ (stopped_by_tick 1 (pollingWindow [vatInput] "Acme" "IT123")
     ↔ vatInputFound (pollingWindow [vatInput] "Acme" "IT123")
       ∨ companyInputFound (pollingWindow [vatInput] "Acme" "IT123"))
  ∧ (¬ vatInputFound (pollingWindow [vatInput] "Acme" "IT123") ->
     ¬ companyInputFound (pollingWindow [vatInput] "Acme" "IT123") ->
     fire 1 (pollingWindow [vatInput] "Acme" "IT123")
     = pollingWindow [vatInput] "Acme" "IT123").
Proof.
  split; [reflexivity|].
  apply (tick_stops_when_one_input_found 1
           (pollingWindow [vatInput] "Acme" "IT123")
           {| capturedCompanyName := "Acme"; capturedCompanyVat := "IT123";
              delay := 300 |}).
  reflexivity.
Defined.

(** C3 as stated fails: on a page that holds the VAT input and no company
    input, the first tick already ends the polling. *)
Lemma polling_stops_with_one_input :
  ¬ (∀ i w h,
       timers w !! i = Some h ->
       stopped_by_tick i w -> vatInputFound w ∧ companyInputFound w).
Proof.
  intros H.
  destruct (H 1 (pollingWindow [vatInput] "Acme" "IT123") _ eq_refl)
    as [_ [ref Href]].
  - reflexivity.
  - discriminate Href.
Qed.

(** The first tick after the effect ran, as a whole. *)
Lemma after_first_tick_result (companyName companyVat : string)
    (w : Window) (d : list Element) :
  after_first_tick companyName companyVat w d
  = {| document :=
         alter_found (aligned companyName) (querySelector companySelector d)
           (alter_found (aligned companyVat)
              (getElementById pIvaInputId d) d);
       timers :=
         if bool_decide (is_Some (getElementById pIvaInputId d))
            || bool_decide (is_Some (querySelector companySelector d))
         then delete (nextTimerId w)
                (<[nextTimerId w := {| capturedCompanyName := companyName;
                                       capturedCompanyVat := companyVat;
                                       delay := 300 |}]> (timers w))
         else <[nextTimerId w := {| capturedCompanyName := companyName;
                                    capturedCompanyVat := companyVat;
                                    delay := 300 |}]> (timers w);
       nextTimerId := S (nextTimerId w) |}.
Proof.
  unfold after_first_tick, syncEffect, setInterval, fire, set_document.
  cbn [fst snd timers]. rewrite lookup_insert_eq.
  cbn [capturedCompanyName capturedCompanyVat].
  by rewrite intervalCallback_result.
Qed.

(** C2, as the code has it. The effect registers a timer of period
    300 ms that carries the resolved company name and the VAT number
    "IT123". When a tick of that timer, while it is still registered
    (no earlier tick found either input), finds the VAT input on the page,
    then after that tick the input holds "IT123" and is read-only, the
    timer is cleared, and its later ticks write nothing whatever the page
    then holds, provided
    - the input already holds "IT123", or its setter stores "IT123" as it
      is (a text input does, a number input does not), and
    - the VAT input is not at the same time the input the company selector
      finds, or the resolved company name is empty or is "IT123" itself. *)
Theorem tick_syncs_vat_input (companyName : string) (w : Window)
    (i ref : nat) (e : Element) :
  timers w !! i = Some (vatTimer companyName) ->
  getElementById pIvaInputId (document w) = Some ref ->
  document w !! ref = Some e ->
  (value e = "IT123" ∨ stored (sanitization e) "IT123" = "IT123") ->
  (querySelector companySelector (document w) ≠ Some ref
   ∨ companyName = "" ∨ companyName = "IT123") ->
  synced_by_tick i w ref
  ∧ (∀ w0,
       timers (syncEffect companyName "IT123" w0).2
         !! (syncEffect companyName "IT123" w0).1
       = Some (vatTimer companyName)).
Proof.
  intros Hreg Hvat He Hstored Hcompany. split.
  - assert (Hfire : fire i w = intervalCallback companyName "IT123" i w).
    { unfold fire. by rewrite Hreg. }
    unfold synced_by_tick. rewrite Hfire.
    assert (Hcleared :
              timers (intervalCallback companyName "IT123" i w) !! i = None).
    { rewrite intervalCallback_result. cbn [timers]. rewrite Hvat.
      rewrite (bool_decide_eq_true_2 (is_Some (Some ref))) by eauto.
      cbn [orb]. apply lookup_delete_eq. }
    split; [|split; [done|]].
    + rewrite (intervalCallback_lookup _ _ _ _ _ _ He).
      eexists. split; [reflexivity|].
      assert (Hv : value (aligned "IT123" e) = "IT123").
      { unfold aligned; cbn [value]. case_decide as Hc.
        - destruct Hstored as [Hs|Hs]; [by destruct Hc | done].
        - destruct (decide (value e = "IT123")) as [Hs|Hs]; [done|].
          by destruct Hc. }
      unfold ticked.
      rewrite (decide_True
                 (P := getElementById pIvaInputId (document w) = Some ref))
        by done.
      case_decide as Hq; [|done].
      destruct Hcompany as [Hn | [-> | ->]]; [done | |].
      * split; [|done]. unfold aligned at 1; cbn [value].
        rewrite decide_False; [done | by intros [? _]].
      * split; [|done]. unfold aligned at 1; cbn [value].
        rewrite decide_False; [done | tauto].
    + intros d'. apply fire_unregistered. by cbn [set_document timers].
  - intros w0. unfold syncEffect, setInterval. cbn [fst snd timers].
    apply lookup_insert_eq.
Qed.

Lemma tick_syncs_vat_input_witness :
  timers (pollingWindow [vatInput] "Acme" "IT123") !! 1
  = Some (vatTimer "Acme")
  ∧ getElementById pIvaInputId
      (document (pollingWindow [vatInput] "Acme" "IT123")) = Some 0
  ∧ synced_by_tick 1 (pollingWindow [vatInput] "Acme" "IT123") 0.
Proof.
  split; [reflexivity|]. split; [reflexivity|].
  apply (tick_syncs_vat_input "Acme"
           (pollingWindow [vatInput] "Acme" "IT123") 1 0 vatInput);
    [reflexivity | reflexivity | reflexivity | right; reflexivity
    | left; discriminate].
Defined.

(** C2 as stated fails on a page whose VAT input is also the input the
    company selector finds: the tick writes "IT123" into it and then the
    company name over it. *)
Lemma company_name_overwrites_shared_input :
  ¬ (∀ companyName w d ref,
       getElementById pIvaInputId d = Some ref ->
       vat_input_synced companyName w d ref).
Proof.
  intros H.
  destruct (H "Acme" blankWindow [vatAndCompanyInput] 0 eq_refl)
    as (_ & (e & He & Hv & _) & _).
  vm_compute in He. injection He as <-. discriminate Hv.
Qed.

(** Nor does it hold on a page whose VAT input is a number input: the
    setter stores the empty string for "IT123". *)
Lemma number_input_refuses_vat :
  getElementById pIvaInputId [numberVatInput] = Some 0
  ∧ querySelector companySelector [numberVatInput] = None
  ∧ ¬ vat_input_synced "Acme" blankWindow [numberVatInput] 0.
Proof.
  split; [reflexivity|]. split; [reflexivity|].
  intros (_ & (e & He & Hv & _) & _).
  assert (Hstored :
            value <$> document
                        (after_first_tick "Acme" "IT123" blankWindow
                           [numberVatInput]) !! 0
            = Some "") by reflexivity.
  rewrite He in Hstored. injection Hstored as Hstored.
  rewrite Hv in Hstored. discriminate Hstored.
Qed.

(** *** The timer over the life of the form *)

Lemma fire_timers (i : nat) (w : Window) (j : nat) :
  nextTimerId (fire i w) = nextTimerId w
  ∧ (timers w !! j = None -> timers (fire i w) !! j = None).
Proof.
  unfold fire. destruct (timers w !! i) as [h|]; [|done].
  rewrite intervalCallback_result. cbn [nextTimerId timers].
  split; [done|]. intros Hj.
  destruct (bool_decide _ || bool_decide _); [|done].
  rewrite lookup_delete. by case_decide.
Qed.

Lemma idle_consistent (d : list Element) (next : nat) :
  consistent (idle d next).
Proof.
  split; [|split].
  - intros i [h Hh]. unfold idle in Hh. cbn [window timers] in Hh.
    by rewrite lookup_empty in Hh.
  - intros j _. apply lookup_empty.
  - intros inst [=].
Qed.

Lemma runEffect_consistent (form : Form) (p : Props) (w : Window) :
  (∀ j, timers w !! j = None) ->
  consistent (runEffect form p w).
Proof.
  intros Hfree. unfold consistent, timer_owned, runEffect, syncEffect,
    setInterval. cbn [window timers mounted nextTimerId].
  split; [|split].
  - intros i [h Hh]. eexists. split; [reflexivity|]. cbn [intervalId].
    destruct (decide (nextTimerId w = i)) as [|Hne]; [done|].
    rewrite lookup_insert_ne in Hh by done. by rewrite Hfree in Hh.
  - intros j Hj. rewrite lookup_insert_ne by lia. apply Hfree.
  - intros inst [= <-]. cbn [intervalId]. lia.
Qed.

(** A consistent page with the effect's timer cleared has no timer. *)
Lemma cleared_free (s : System) (inst : EffectInstance) :
  consistent s -> mounted s = Some inst ->
  ∀ j, timers (syncCleanup (intervalId inst) (window s)) !! j = None.
Proof.
  intros (Hown & _ & _) Hm j. unfold syncCleanup, clearInterval.
  cbn [timers]. rewrite lookup_delete.
  case_decide as Hj; [done|].
  apply eq_None_not_Some. intros Hs.
  destruct (Hown j Hs) as (inst' & Hm' & <-). congruence.
Qed.

Lemma unmounted_free (s : System) :
  consistent s -> mounted s = None -> ∀ j, timers (window s) !! j = None.
Proof.
  intros (Hown & _ & _) Hm j. apply eq_None_not_Some. intros Hs.
  destruct (Hown j Hs) as (inst & Hm' & _). congruence.
Qed.

Lemma step_consistent (form : Form) (s : System) (ev : Event) :
  consistent s -> consistent (step form s ev).
Proof.
  intros Hs. destruct ev as [p|t|d'|]; cbn [step].
  - destruct (mounted s) as [inst|] eqn:Hm.
    + case_decide; [done|].
      apply runEffect_consistent. by apply cleared_free.
    + apply runEffect_consistent. by apply unmounted_free.
  - destruct Hs as (Hown & Hfree & Hlt).
    unfold consistent, timer_owned. cbn [window mounted].
    split; [|split].
    + intros j Hj. apply Hown.
      destruct (timers (window s) !! j) eqn:E; [done|].
      apply (fire_timers t) in E. rewrite E in Hj. by destruct Hj.
    + intros j Hj. apply fire_timers. apply Hfree.
      by destruct (fire_timers t (window s) j) as [<- _].
    + intros inst Hm. destruct (fire_timers t (window s) 0) as [-> _].
      by apply Hlt.
  - destruct Hs as (Hown & Hfree & Hlt). by repeat split.
  - destruct (mounted s) as [inst|] eqn:Hm; [|done].
    unfold consistent, timer_owned. cbn [window mounted].
    split; [|split].
    + intros j Hj. rewrite (cleared_free s inst Hs Hm j) in Hj.
      by destruct Hj.
    + intros j _. apply (cleared_free s inst Hs Hm j).
    + done.
Qed.

Lemma run_consistent (form : Form) (evs : list Event) (s : System) :
  consistent s -> consistent (run form s evs).
Proof.
  revert s. induction evs as [|ev evs IH]; intros s Hs; [done|].
  apply IH. by apply step_consistent.
Qed.

(** While the page holds neither input, ticks leave everything as it is. *)
Lemma run_ticks_nothing_found (form : Form) (s : System) (ticks : list nat) :
  getElementById pIvaInputId (document (window s)) = None ->
  querySelector companySelector (document (window s)) = None ->
  run form s (TimerDue <$> ticks) = s.
Proof.
  intros Hv Hc. induction ticks as [|t ticks IH]; [done|].
  unfold run in *. cbn [fmap list_fmap foldl step].
  rewrite fire_nothing_found.
  - destruct s. exact IH.
  - unfold vatInputFound. rewrite Hv. by intros [? ?].
  - unfold companyInputFound. rewrite Hc. by intros [? ?].
Qed.

(** C8. The cleanup of the effect clears its interval whatever the window
    holds, and nothing else. On a page where the form is the only one to
    set timers, whatever happens (renders with old or new dependencies,
    ticks, changes of the page, unmounts and remounts): an active timer is
    always the one of the effect's current run; unmounting leaves no active
    timer; and a render with changed dependencies cancels the timer of the
    previous run. In particular, a form mounted on a page that holds
    neither input keeps its timer through any number of ticks, and
    unmounting it then leaves no active timer. *)
Theorem cleanup_cancels_the_timer (form : Form) (d : list Element)
    (next : nat) (evs : list Event) :
  (∀ i w, timers (syncCleanup i w) !! i = None
          ∧ ∀ j, j ≠ i -> timers (syncCleanup i w) !! j = timers w !! j)
  ∧ timer_owned (run form (idle d next) evs)
  ∧ timers (window (step form (run form (idle d next) evs) Unmount)) = ∅
  ∧ (∀ inst p,
       mounted (run form (idle d next) evs) = Some inst ->
       lastDeps inst ≠ deps form p ->
       timers (window (step form (run form (idle d next) evs) (Render p)))
         !! intervalId inst = None)
  ∧ (∀ p ticks,
       getElementById pIvaInputId d = None ->
       querySelector companySelector d = None ->
       is_Some
         (timers (window (run form (idle d next)
                            (Render p :: (TimerDue <$> ticks)))) !! next)
       ∧ timers (window (run form (idle d next)
                           (Render p :: (TimerDue <$> ticks) ++ [Unmount])))
         = ∅).
Proof.
  assert (Hunmount : ∀ evs',
    timers (window (step form (run form (idle d next) evs') Unmount)) = ∅).
  { intros evs'.
    pose proof (run_consistent form evs' _ (idle_consistent d next)) as Hc.
    apply map_empty. intros j. cbn [step].
    destruct (mounted (run form (idle d next) evs')) as [inst|] eqn:Hm.
    - by apply cleared_free.
    - by apply unmounted_free. }
  pose proof (run_consistent form evs _ (idle_consistent d next)) as Hc.
  split.
  { intros i w. unfold syncCleanup, clearInterval. cbn [timers].
    split; [apply lookup_delete_eq|].
    intros j Hj. by apply lookup_delete_ne. }
  split; [apply Hc|]. split; [apply Hunmount|]. split.
  - intros inst p Hm Hdeps. cbn [step]. rewrite Hm.
    rewrite decide_False by done.
    destruct Hc as (_ & _ & Hlt). specialize (Hlt inst Hm).
    cbn. rewrite lookup_insert_ne by lia. apply lookup_delete_eq.
  - intros p ticks Hv Hc'. split.
    + change (run form (idle d next) (Render p :: (TimerDue <$> ticks)))
        with (run form (step form (idle d next) (Render p))
                (TimerDue <$> ticks)).
      rewrite run_ticks_nothing_found by done.
      cbn. rewrite lookup_insert_eq. eauto.
    + rewrite app_comm_cons. unfold run. rewrite foldl_app.
      apply (Hunmount (Render p :: (TimerDue <$> ticks))).
Qed.

Example billing_form_life :
  run BillingForm (idle [] 1)
    [ Render {| shippingFormRenderTimestamp := None;
                companyName := "Acme"; companyVat := "" |};
      TimerDue 1;
      Render {| shippingFormRenderTimestamp := None;
                companyName := "Acme"; companyVat := "IT123" |};
      TimerDue 1;
      PageChanges [vatInput];
      TimerDue 2;
      TimerDue 2 ]
  = {| window :=
         {| document :=
              [ {| tagName := "input"; id := "field_30Input";
                   name := "shippingAddress.customFields.field_30";
                   value := "IT123"; readOnly := true;
                   backgroundColor := "#f4f4f4";
                   cursor := "not-allowed";
                   sanitization := textSanitization |} ];
            timers := ∅;
            nextTimerId := 3 |};
       mounted :=
         Some {| lastDeps := (None, "Acme", "IT123"); intervalId := 2 |} |}.
Proof. vm_compute. reflexivity. Qed.

Example unmount_before_inputs_appear :
  timers
    (window
       (run ShippingForm (idle [] 1)
          [ Render {| shippingFormRenderTimestamp := Some 1700000000000%Z;
                      companyName := "Acme"; companyVat := "" |};
            TimerDue 1; TimerDue 1;
            Unmount ]))
  = ∅.
Proof. vm_compute. reflexivity. Qed.

End DomSyncFacts.

(** * Further properties *)

(** ** The field patchers, composed and compared *)

Module FieldPatchMore.
Import Sdk FieldPatch FieldPatchSpec FieldPatchMoreSpec.

Lemma relaxed_by_billing_alias (f : FormField) :
  relaxed_by_billing f = true ↔ billing_alias f.
Proof. apply FieldPatchFacts.billing_test. Qed.

Lemma relaxed_by_shipping_alias (f : FormField) :
  relaxed_by_shipping f = true ↔ shipping_alias f.
Proof. apply FieldPatchFacts.shipping_test. Qed.

(** The shipping patcher relaxes nothing the billing patcher does not. *)
Lemma shipping_within_billing (f : FormField) :
  relaxed_by_billing f || relaxed_by_shipping f = relaxed_by_billing f.
Proof.
  destruct (relaxed_by_shipping f) eqn:Es; [|apply orb_false_r].
  apply relaxed_by_shipping_alias in Es.
  assert (Hb : billing_alias f).
  { destruct Es as [Hc|Hv]; [left|by right].
    unfold shipping_company_alias in Hc. unfold company_alias. tauto. }
  apply relaxed_by_billing_alias in Hb. by rewrite Hb.
Qed.

(** Patching by one test and then by another patches by either. *)
Lemma map_by_tests (t1 t2 t : FormField -> bool) (l : list FormField) :
  (∀ f, t2 (not_required f) = t2 f) ->
  (∀ f, t1 f || t2 f = t f) ->
  (fun f => if t2 f then not_required f else f)
    <$> ((fun f => if t1 f then not_required f else f) <$> l)
  = (fun f => if t f then not_required f else f) <$> l.
Proof.
  intros H2 Ht. rewrite <- list_fmap_compose. apply list_fmap_ext.
  intros _ f _. unfold compose. rewrite <- Ht.
  destruct (t1 f); cbn [orb].
  - rewrite H2. by destruct (t2 f).
  - reflexivity.
Qed.

(** X1. Patching is idempotent, and the billing patcher absorbs the
    shipping patcher: patching a patched [getFields] again, with either
    patcher and in either order, gives what one patching gives (the
    billing result as soon as the billing patcher is involved). *)
Theorem patchers_absorb (getFields : option string -> list FormField)
    (countryCode : option string) :
  getFieldsWithPivaReadonly (getFieldsWithPivaReadonly getFields) countryCode
  = getFieldsWithPivaReadonly getFields countryCode
  ∧ getFieldsWithPivaRequired (getFieldsWithPivaRequired getFields) countryCode
    = getFieldsWithPivaRequired getFields countryCode
  ∧ getFieldsWithPivaReadonly (getFieldsWithPivaRequired getFields) countryCode
    = getFieldsWithPivaReadonly getFields countryCode
  ∧ getFieldsWithPivaRequired (getFieldsWithPivaReadonly getFields) countryCode
    = getFieldsWithPivaReadonly getFields countryCode.
Proof.
  split; [|split; [|split]].
  - apply (map_by_tests relaxed_by_billing relaxed_by_billing
                        relaxed_by_billing).
    + by intros [].
    + intros f. apply orb_diag.
  - apply (map_by_tests relaxed_by_shipping relaxed_by_shipping
                        relaxed_by_shipping).
    + by intros [].
    + intros f. apply orb_diag.
  - apply (map_by_tests relaxed_by_shipping relaxed_by_billing
                        relaxed_by_billing).
    + by intros [].
    + intros f. rewrite orb_comm. apply shipping_within_billing.
  - apply (map_by_tests relaxed_by_billing relaxed_by_shipping
                        relaxed_by_billing).
    + by intros [].
    + apply shipping_within_billing.
Qed.

(** A test that reads only the name and the id cannot tell two fields
    that differ in [required] apart. *)
Lemma map_by_test_invariant (alias : FormField -> Prop)
    (test : FormField -> bool) (l1 l2 : list FormField) :
  (∀ f, test f = true ↔ alias f) ->
  (∀ f g, name g = name f -> id g = id f -> test g = test f) ->
  Forall2 (same_up_to_relaxed alias) l1 l2 ->
  (fun f => if test f then not_required f else f) <$> l1
  = (fun f => if test f then not_required f else f) <$> l2.
Proof.
  intros Htest Hcongr H. induction H as [|f g l1 l2 [Hin Hout] _ IH]; [done|].
  cbn [fmap list_fmap]. f_equal; [|exact IH].
  destruct (test f) eqn:Ef.
  - apply Htest in Ef. specialize (Hin Ef).
    assert (Hg : test g = true).
    { rewrite <- (proj2 (Htest f) Ef). apply Hcongr.
      - exact (f_equal name Hin).
      - exact (f_equal id Hin). }
    by rewrite Hg.
  - assert (Hn : ¬ alias f) by (rewrite <- Htest; congruence).
    rewrite (Hout Hn). by rewrite Ef.
Qed.

Lemma billing_patcher_ignores_required
    (getFields1 getFields2 : option string -> list FormField)
    (countryCode : option string) :
  Forall2 (same_up_to_relaxed billing_alias)
          (getFields1 countryCode) (getFields2 countryCode) ->
  getFieldsWithPivaReadonly getFields1 countryCode
  = getFieldsWithPivaReadonly getFields2 countryCode.
Proof.
  intros H.
  apply (map_by_test_invariant _ _ _ _ FieldPatchFacts.billing_test);
    [|exact H].
  intros f g -> ->. reflexivity.
Qed.

(** X2. What a patcher returns does not depend on whether the store marks
    the company and VAT fields as required: two [getFields] results that
    differ only in [required], and only on fields the patcher relaxes, are
    patched to the same list. *)
Theorem patchers_ignore_store_required
    (getFields1 getFields2 : option string -> list FormField)
    (countryCode : option string) :
  (Forall2 (same_up_to_relaxed billing_alias)
           (getFields1 countryCode) (getFields2 countryCode) ->
   getFieldsWithPivaReadonly getFields1 countryCode
   = getFieldsWithPivaReadonly getFields2 countryCode)
  ∧ (Forall2 (same_up_to_relaxed shipping_alias)
             (getFields1 countryCode) (getFields2 countryCode) ->
     getFieldsWithPivaRequired getFields1 countryCode
     = getFieldsWithPivaRequired getFields2 countryCode).
Proof.
  split; intros H.
  - by apply billing_patcher_ignores_required.
  - apply (map_by_test_invariant _ _ _ _ FieldPatchFacts.shipping_test);
      [|exact H].
    intros f g -> ->. reflexivity.
Qed.

Example stores_patched_alike :
  Forall2 (same_up_to_relaxed billing_alias) (strictStore None) (laxStore None)
  ∧ getFieldsWithPivaReadonly strictStore None
    = getFieldsWithPivaReadonly laxStore None.
Proof.
  split; [|reflexivity].
  repeat constructor; try done;
    intros Hn; destruct Hn; unfold billing_alias, company_alias, vat_alias;
    cbn; auto.
Qed.

(** Every field a patcher returns under one of its aliases is optional. *)
Lemma map_by_test_output (alias : FormField -> Prop)
    (test : FormField -> bool) (l : list FormField) :
  (∀ f, test f = true ↔ alias f) ->
  (∀ f, test (not_required f) = test f) ->
  Forall (fun g => alias g -> required g = false)
         ((fun f => if test f then not_required f else f) <$> l).
Proof.
  intros Htest Hnr. apply Forall_fmap, Forall_forall. intros f _.
  unfold compose. destruct (test f) eqn:E; [done|].
  intros Ha. apply Htest in Ha. congruence.
Qed.

Lemma billing_output_optional (getFields : option string -> list FormField)
    (countryCode : option string) :
  Forall (fun g => billing_alias g -> required g = false)
         (getFieldsWithPivaReadonly getFields countryCode).
Proof.
  apply (map_by_test_output _ _ _ FieldPatchFacts.billing_test).
  by intros [].
Qed.

Lemma shipping_output_optional (getFields : option string -> list FormField)
    (countryCode : option string) :
  Forall (fun g => shipping_alias g -> required g = false)
         (getFieldsWithPivaRequired getFields countryCode).
Proof.
  apply (map_by_test_output _ _ _ FieldPatchFacts.shipping_test).
  by intros [].
Qed.

End FieldPatchMore.

(** ** BillingForm: fields, view, handlers and Formik configuration *)

Module BillingFormFacts.
Import FieldPatch FieldPatchSpec FieldPatchMoreSpec BillingFormRender.

Lemma filter_fmap_same {A} (P : A -> Prop) `{!∀ x, Decision (P x)}
    (f : A -> A) (l : list A) :
  (∀ x, P (f x) ↔ P x) ->
  filter P (f <$> l) = f <$> filter P l.
Proof.
  intros Hf. induction l as [|x l IH]; [done|].
  cbn [fmap list_fmap]. rewrite !filter_cons.
  destruct (decide (P (f x))) as [Hy|Hy], (decide (P x)) as [Hx|Hx].
  - cbn [fmap list_fmap]. by rewrite IH.
  - destruct Hx. by apply Hf.
  - destruct Hy. by apply Hf.
  - exact IH.
Qed.

(** X3. The custom fields of the billing form are the store's custom
    fields, patched: filtering the patched list on [custom] gives the same
    list as patching the filtered one, so patching never makes a field
    custom or stops it being custom. *)
Theorem customFormFields_patched_custom
    (getFields : option string -> list Sdk.FormField) (countryCode : string) :
  customFormFields getFields countryCode
  = getFieldsWithPivaReadonly
      (fun c => filter (fun field => Sdk.custom field = true) (getFields c))
      (Some countryCode).
Proof.
  unfold customFormFields, allFormFields, getFieldsWithPivaReadonly.
  cbv zeta. apply filter_fmap_same.
  intros [n c i l r a]. cbn [Sdk.name Sdk.id].
  by destruct (_ || _).
Qed.

Lemma editableFormFields_cases (methodId : option string)
    (getFields : option string -> list Sdk.FormField) (countryCode : string) :
  (editableFormFields methodId getFields countryCode
   = customFormFields getFields countryCode
   ∧ methodId = Some "amazonpay"
   ∧ customFormFields getFields countryCode ≠ [])
  ∨ (editableFormFields methodId getFields countryCode
     = allFormFields getFields countryCode
     ∧ (methodId ≠ Some "amazonpay"
        ∨ customFormFields getFields countryCode = [])).
Proof.
  unfold editableFormFields, shouldRenderStaticAddress, hasCustomFormFields.
  destruct (bool_decide (methodId = Some "amazonpay")) eqn:Em; cbn [andb].
  - apply bool_decide_eq_true in Em.
    destruct (customFormFields getFields countryCode) as [|f fs] eqn:Ec;
      cbn [length Nat.ltb Nat.leb].
    + right. split; [done | by right].
    + left. done.
  - apply bool_decide_eq_false in Em. right. split; [done | by left].
Qed.

(** X4. The fields the billing address form edits are drawn, in order,
    from the patched fields; they are all of them when the payment method
    is not 'amazonpay' and also when the store has no custom field, and
    exactly the custom ones when the method is 'amazonpay' and the store
    has custom fields. They are never empty unless [getFields] returned no
    field at all, and none of them is a required company or VAT field. *)
Theorem editableFormFields_shape (methodId : option string)
    (getFields : option string -> list Sdk.FormField) (countryCode : string) :
  sublist (editableFormFields methodId getFields countryCode)
          (allFormFields getFields countryCode)
  ∧ (editableFormFields methodId getFields countryCode = []
     ↔ getFields (Some countryCode) = [])
  ∧ (methodId ≠ Some "amazonpay" ->
     editableFormFields methodId getFields countryCode
     = allFormFields getFields countryCode)
  ∧ (customFormFields getFields countryCode = [] ->
     editableFormFields methodId getFields countryCode
     = allFormFields getFields countryCode)
  ∧ (methodId = Some "amazonpay" ->
     customFormFields getFields countryCode ≠ [] ->
     editableFormFields methodId getFields countryCode
     = customFormFields getFields countryCode
     ∧ Forall (fun f => Sdk.custom f = true)
              (editableFormFields methodId getFields countryCode))
  ∧ Forall (fun f => billing_alias f -> Sdk.required f = false)
           (editableFormFields methodId getFields countryCode).
Proof.
  assert (Hsub : sublist (customFormFields getFields countryCode)
                         (allFormFields getFields countryCode))
    by apply sublist_filter.
  assert (Hall : allFormFields getFields countryCode = []
                 ↔ getFields (Some countryCode) = []).
  { unfold allFormFields, getFieldsWithPivaReadonly. cbv zeta.
    split; [apply fmap_nil_inv | by intros ->]. }
  assert (Hopt : Forall (fun f => billing_alias f -> Sdk.required f = false)
                        (allFormFields getFields countryCode))
    by apply FieldPatchMore.billing_output_optional.
  destruct (editableFormFields_cases methodId getFields countryCode)
    as [(-> & Hm & Hc) | (-> & Hor)].
  - split; [done|]. split.
    { split; [done|]. intros He. apply Hall in He.
      unfold customFormFields. by rewrite He. }
    split; [done|]. split; [done|]. split.
    { intros _ _. split; [done|]. unfold customFormFields.
      apply Forall_forall. intros f Hf.
      by apply list_elem_of_filter in Hf as [? _]. }
    unfold customFormFields. apply Forall_forall. intros f Hf.
    apply list_elem_of_filter in Hf as [_ Hf].
    by apply (proj1 (Forall_forall _ _) Hopt).
  - split; [done|]. split; [done|]. split; [done|]. split; [done|].
    split; [|done]. intros Hm Hc. by destruct Hor.
Qed.

(** X5. Whenever config, customer and cart are there the form renders, and
    otherwise it throws 'checkout data is not available'. In what it
    renders, the static address and the address select never appear
    together; the address form appears whenever there is no billing
    address; a saved address is shown as selected only when it is the
    billing address and the address form is hidden; and the button is
    disabled exactly while it shows as loading, which it does while the
    address is being reset. *)
Theorem BillingForm_view {Cart Country : Type}
    (getShippableItemsCount : Cart -> Z)
    (isValidCustomerAddress :
       Sdk.Address -> option (list Sdk.Address) -> list Sdk.FormField -> bool)
    (getIsFloatingLabelEnabled : CheckoutSettings -> bool)
    (props : Props) (hooks : Hooks Cart Country) :
  (BillingForm getShippableItemsCount isValidCustomerAddress
     getIsFloatingLabelEnabled props hooks
   = Threw "checkout data is not available"
   ↔ config hooks = None ∨ customer hooks = None ∨ cart hooks = None)
  ∧ (∀ message,
       BillingForm getShippableItemsCount isValidCustomerAddress
         getIsFloatingLabelEnabled props hooks = Threw message ->
       message = "checkout data is not available")
  ∧ ∀ view,
      BillingForm getShippableItemsCount isValidCustomerAddress
        getIsFloatingLabelEnabled props hooks = Returned view ->
      ¬ (is_Some (staticBillingAddress view) ∧ is_Some (addressSelect view))
      ∧ (billingAddress props = None -> is_Some (addressForm view))
      ∧ (∀ select address,
           addressSelect view = Some select ->
           selectedAddress select = Some address ->
           billingAddress props = Some address ∧ addressForm view = None)
      ∧ (addressForm view = None -> is_Some (billingAddress props))
      ∧ disabled (button view) = isLoading (button view)
      ∧ (isResettingAddress hooks = true -> disabled (button view) = true).
Proof.
  unfold BillingForm. split; [|split].
  - destruct (config hooks), (customer hooks), (cart hooks);
      split; try (intros [=]); try (intros [[=]|[[=]|[=]]]); eauto.
  - intros message.
    destruct (config hooks), (customer hooks), (cart hooks);
      by intros [=].
  - intros view Hv.
    destruct (config hooks) as [cfg|]; [|done].
    destruct (customer hooks) as [cust|]; [|done].
    destruct (cart hooks) as [crt|]; [|done].
    cbv zeta in Hv. injection Hv as <-.
    cbn [staticBillingAddress addressSelect addressForm button disabled
         isLoading].
    set (valid := match billingAddress props with
                  | Some a => isValidCustomerAddress a _ _
                  | None => false
                  end).
    destruct (shouldRenderStaticAddress (methodId props));
      rewrite ?andb_false_r; cbn [negb andb].
    + repeat split.
      * by intros [_ [? ?]].
      * intros Hb. unfold valid. rewrite Hb. cbn [negb]. eauto.
      * done.
      * done.
      * unfold valid. destruct (billingAddress props); [eauto|done].
      * intros ->. apply orb_true_r.
    + repeat split.
      * by intros [[? ?] _].
      * intros Hb. unfold valid. rewrite Hb. cbn [negb]. eauto.
      * destruct (match (if _ && _ then _ else _) with
                  | Some l => _ | None => _ end); [|done].
        cbn [andb] in H. injection H as <-. cbn [selectedAddress] in H0.
        by destruct valid.
      * destruct (match (if _ && _ then _ else _) with
                  | Some l => _ | None => _ end); [|done].
        cbn [andb] in H. injection H as <-. cbn [selectedAddress] in H0.
        by destruct valid.
      * unfold valid. destruct (billingAddress props); [eauto|done].
      * intros ->. apply orb_true_r.
Qed.

End BillingFormFacts.

Module BillingFormHandlersFacts.
Import BillingFormHandlers.

(** X6. Selecting an address sets the resetting flag, asks the checkout
    service for the update, and clears the flag again whatever the outcome,
    so the flag is always off afterwards. [onUnhandledError] is called,
    once and before the flag is cleared, exactly when the update rejects
    with an [Error]; a rejection with any other value is dropped in
    silence. The handler's own promise rejects only when
    [onUnhandledError] itself throws. *)
Theorem handleSelectAddress_resets_flag
    (updateBillingAddress : PartialAddress -> option Thrown)
    (onUnhandledError : string -> option Thrown)
    (address : PartialAddress) (flag : bool) :
  (handleSelectAddress updateBillingAddress onUnhandledError address).1
  = ([SetIsResettingAddress true; UpdateBillingAddress address]
     ++ match updateBillingAddress address with
        | Some (ErrorInstance message) => [OnUnhandledError message]
        | _ => []
        end
     ++ [SetIsResettingAddress false])%list
  ∧ (handleSelectAddress updateBillingAddress onUnhandledError address).2
    = match updateBillingAddress address with
      | Some (ErrorInstance message) => onUnhandledError message
      | _ => None
      end
  ∧ isResettingAddress_after flag
      (handleSelectAddress updateBillingAddress onUnhandledError address).1
    = false
  ∧ isResettingAddress_after flag
      (take 2
         (handleSelectAddress updateBillingAddress onUnhandledError
            address).1)
    = true
  ∧ handleUseNewAddress updateBillingAddress onUnhandledError
    = (handleSelectAddress updateBillingAddress onUnhandledError NoFields).1.
Proof.
  unfold handleUseNewAddress, handleSelectAddress, seq, try_finally,
    try_catch, call, act, skip.
  destruct (updateBillingAddress address) as [[message|v]|];
    cbn [fst snd app]; done.
Qed.

Example handleSelectAddress_non_error_rejection :
  handleSelectAddress (fun _ => Some (OtherValue (Js.JString "offline")))
                      (fun _ => None) NoFields
  = ([SetIsResettingAddress true; UpdateBillingAddress NoFields;
      SetIsResettingAddress false], None).
Proof. reflexivity. Qed.

Example handleSelectAddress_throwing_error_handler :
  handleSelectAddress (fun _ => Some (ErrorInstance "update failed"))
                      (fun m => Some (ErrorInstance m)) NoFields
  = ([SetIsResettingAddress true; UpdateBillingAddress NoFields;
      OnUnhandledError "update failed"; SetIsResettingAddress false],
     Some (ErrorInstance "update failed")).
Proof. reflexivity. Qed.

End BillingFormHandlersFacts.

Module BillingFormikFacts.
Import FieldPatch FieldPatchMoreSpec BillingFormik.

Section WithSchemas.

Variables Language Translate Schema : Type.
Variable getAddressFormFieldsValidationSchema :
  Language -> list Sdk.FormField -> Schema.
Variable getCustomFormFieldsValidationSchema :
  Translate -> list Sdk.FormField -> Schema.
Variable getTranslateAddressError : Language -> Translate.
Variable isValidSync : Schema -> Sdk.Address -> bool.
Variable mapAddressToFormValues :
  list Sdk.FormField -> option Sdk.Address -> gmap string Js.JsonValue.

(** X7. In the Formik configuration of the billing form: without a
    billing address the form is never initially valid; the initial values
    always carry the customer message as [orderComment], whatever the
    address mapping returned under that key, and leave its other keys as
    they are; and initial validity, the validation schema (for either
    payment method) and the initial values are the same for two stores
    whose field definitions differ only in whether the company and VAT
    fields are required. *)
Theorem formik_config_ignores_store_required
    (language : Language) (props : Props) :
  (billingAddress props = None ->
   isInitialValid _ _ getAddressFormFieldsValidationSchema isValidSync
     language props = false)
  ∧ mapPropsToValues mapAddressToFormValues props !! "orderComment"
    = Some (Js.JString (customerMessage props))
  ∧ (∀ key, key ≠ "orderComment" ->
       mapPropsToValues mapAddressToFormValues props !! key
       = mapAddressToFormValues
           (getFieldsWithPivaReadonly (getFields props)
              (Sdk.countryCode <$> billingAddress props))
           (billingAddress props) !! key)
  ∧ (∀ getFields',
       (∀ countryCode,
          Forall2 (same_up_to_relaxed billing_alias)
                  (getFields props countryCode) (getFields' countryCode)) ->
       let props' :=
         {| methodId := methodId props;
            billingAddress := billingAddress props;
            customerMessage := customerMessage props;
            getFields := getFields' |} in
       isInitialValid _ _ getAddressFormFieldsValidationSchema isValidSync
         language props'
       = isInitialValid _ _ getAddressFormFieldsValidationSchema isValidSync
           language props
       ∧ (∀ values,
            validationSchema _ _ _ getAddressFormFieldsValidationSchema
              getCustomFormFieldsValidationSchema getTranslateAddressError
              language props' values
            = validationSchema _ _ _ getAddressFormFieldsValidationSchema
                getCustomFormFieldsValidationSchema getTranslateAddressError
                language props values)
       ∧ mapPropsToValues mapAddressToFormValues props'
         = mapPropsToValues mapAddressToFormValues props).
Proof.
  split; [|split; [|split]].
  - unfold isInitialValid. by intros ->.
  - unfold mapPropsToValues. apply lookup_insert_eq.
  - intros key Hkey. unfold mapPropsToValues. by apply lookup_insert_ne.
  - intros getFields' Hsame props'.
    assert (Heq : ∀ countryCode,
      getFieldsWithPivaReadonly getFields' countryCode
      = getFieldsWithPivaReadonly (getFields props) countryCode).
    { intros countryCode. symmetry.
      by apply FieldPatchMore.billing_patcher_ignores_required. }
    unfold isInitialValid, validationSchema, mapPropsToValues, props'.
    cbn [methodId billingAddress customerMessage getFields].
    split; [|split].
    + destruct (billingAddress props); [|done]. by rewrite Heq.
    + intros values. by rewrite Heq.
    + by rewrite Heq.
Qed.

End WithSchemas.

End BillingFormikFacts.

(** ** The VAT effect, over any network *)

Module CompanyInfoMore.
Import Sdk CompanyInfo CompanyInfoSpec.

(** X8. Whatever the network gives and whoever the customer is, one run of
    the VAT effect either logs nothing and then keeps the resolved VAT
    number or replaces it by a truthy value, or logs exactly one error and
    keeps the resolved VAT number. So the console never loses an entry, a
    VAT number that was resolved is never erased, and without a customer
    id (or with the id 0) nothing changes at all. *)
Theorem companyVatEffect_keeps_or_resolves
    (fetch : Request -> FetchOutcome) (customerId : option Z) (st : State) :
  ((console (companyVatEffect fetch customerId st).2 = console st
    ∧ (companyVat (companyVatEffect fetch customerId st).2 = companyVat st
       ∨ Js.truthy_value
           (Some (companyVat (companyVatEffect fetch customerId st).2))
         = true))
   ∨ (∃ error,
        console (companyVatEffect fetch customerId st).2
        = (console st ++ [(logMessage, error)])%list
        ∧ companyVat (companyVatEffect fetch customerId st).2
          = companyVat st))
  ∧ (Js.truthy_value (Some (companyVat st)) = true ->
     Js.truthy_value
       (Some (companyVat (companyVatEffect fetch customerId st).2)) = true)
  ∧ (customerId = None ∨ customerId = Some 0%Z ->
     (companyVatEffect fetch customerId st).2 = st).
Proof.
  assert (Hcases :
    (console (companyVatEffect fetch customerId st).2 = console st
     ∧ (companyVat (companyVatEffect fetch customerId st).2 = companyVat st
        ∨ Js.truthy_value
            (Some (companyVat (companyVatEffect fetch customerId st).2))
          = true))
    ∨ (∃ error,
         console (companyVatEffect fetch customerId st).2
         = (console st ++ [(logMessage, error)])%list
         ∧ companyVat (companyVatEffect fetch customerId st).2
           = companyVat st)).
  { unfold companyVatEffect.
    destruct customerId as [n|]; [|left; split; [done | by left]].
    destruct (n =? 0)%Z; [left; split; [done | by left]|].
    rewrite CompanyInfoFacts.loadCompanyVat_cases.
    destruct (fetch _) as [|res]; [right; by eexists|].
    destruct (ok res); [|right; by eexists].
    destruct (json res) as [e|data]; [right; by eexists|].
    destruct data; try (right; by eexists);
      try (left; split; [done | by left]).
    unfold vatNumberField.
    destruct (Js.own_property _ _) as [v|]; [|left; split; [done | by left]].
    destruct (Js.truthy_value (Some v)) eqn:Ev.
    - left. split; [done | by right].
    - left. split; [done | by left]. }
  split; [exact Hcases|]. split.
  - intros Ht. destruct Hcases as [[_ [-> | Hv]] | (e & _ & ->)]; done.
  - intros [-> | ->]; reflexivity.
Qed.

(** X9. A successful response stores whatever truthy value its body has
    under [vatNumber], as it is: a number, an array or an object as much
    as a string, although the state is declared a string. *)
Theorem truthy_vatNumber_stored_as_is
    (fetch : Request -> FetchOutcome) (customerId : Z) (st : State)
    (res : Response) (members : list (string * Js.JsonValue))
    (v : Js.JsonValue) :
  fetch (companyDataRequest customerId) = Responded res ->
  ok res = true ->
  json res = inr (Js.JObject members) ->
  Js.own_property "vatNumber" members = Some v ->
  Js.truthy_value (Some v) = true ->
  loadCompanyVat fetch customerId st
  = (Normal tt, {| companyVat := v; console := console st |}).
Proof.
  intros Hf Hok Hj Hv Ht.
  rewrite CompanyInfoFacts.loadCompanyVat_cases, Hf, Hok, Hj.
  unfold vatNumberField. by rewrite Hv, Ht.
Qed.

Lemma truthy_vatNumber_stored_as_is_witness :
  answering 200
    (inr (Js.JObject [("vatNumber", Js.JNumber 1234567890)]))
    (companyDataRequest 7)
  = Responded
      {| status := 200;
         json := inr (Js.JObject [("vatNumber", Js.JNumber 1234567890)]) |}
  ∧ loadCompanyVat
      (answering 200
         (inr (Js.JObject [("vatNumber", Js.JNumber 1234567890)])))
      7 initialState
    = (Normal tt,
       {| companyVat := Js.JNumber 1234567890; console := [] |}).
Proof.
  split; [reflexivity|].
  apply (truthy_vatNumber_stored_as_is
           (answering 200
              (inr (Js.JObject [("vatNumber", Js.JNumber 1234567890)])))
           7 initialState
           {| status := 200;
              json := inr (Js.JObject
                             [("vatNumber", Js.JNumber 1234567890)]) |}
           [("vatNumber", Js.JNumber 1234567890)]
           (Js.JNumber 1234567890));
    reflexivity.
Defined.

End CompanyInfoMore.

(** ** The tick and the timer, further *)

Module DomSyncMore.
Import DomSync DomSyncSpec DomSyncFacts.

Lemma getElementById_alter_found (elementId resolved : string)
    (found : option nat) (d : list Element) :
  getElementById elementId (alter_found (aligned resolved) found d)
  = getElementById elementId d.
Proof. destruct found; [apply getElementById_aligned | done]. Qed.

Lemma alter_found_lookup_None (f : Element -> Element) (found : option nat)
    (d : list Element) (ref : nat) :
  d !! ref = None -> alter_found f found d !! ref = None.
Proof.
  intros Hd. destruct found as [r|]; [|done]. cbn [alter_found].
  rewrite list_lookup_alter. case_decide as Hr; [|done].
  subst r. by rewrite Hd.
Qed.

(** What the setter stored, it stores again unchanged: this is what lets
    a second tick leave the input alone also where the first one wrote the
    company name over the VAT number. *)
Ltac by_stored_cases a b e :=
  pose proof (stored_idempotent (sanitization e) a);
  pose proof (stored_idempotent (sanitization e) b);
  repeat (case_decide; cbn [value] in * ); try done;
  try (intuition congruence);
  destruct (decide (value e = a)), (decide (value e = b)),
           (decide (a = "")), (decide (b = "")),
           (decide (stored (sanitization e) b = a)),
           (decide (stored (sanitization e) a = b));
  intuition congruence.

Lemma aligned_twice (a b : string) (e : Element) :
  aligned a (aligned b (aligned a (aligned b e))) = aligned a (aligned b e).
Proof.
  unfold aligned. cbn [tagName id name value sanitization]. f_equal.
  by_stored_cases a b e.
Qed.

Lemma aligned_once (a : string) (e : Element) :
  aligned a (aligned a e) = aligned a e.
Proof.
  unfold aligned. cbn [tagName id name value sanitization]. f_equal.
  by_stored_cases a a e.
Qed.

Lemma ticked_twice (companyName companyVat : string) (d : list Element)
    (ref : nat) (e : Element) :
  ticked companyName companyVat d ref
    (ticked companyName companyVat d ref e)
  = ticked companyName companyVat d ref e.
Proof.
  unfold ticked.
  destruct (decide (getElementById pIvaInputId d = Some ref)),
           (decide (querySelector companySelector d = Some ref));
    cbv beta iota zeta; auto using aligned_twice, aligned_once.
Qed.

(** X10. A tick is idempotent on the page: running the tick again with
    the same resolved values, from any timer, leaves the page as the first
    tick left it, also when one input plays both parts. *)
Theorem tick_idempotent (companyName companyVat : string) (i j : nat)
    (w : Window) :
  document (intervalCallback companyName companyVat j
              (intervalCallback companyName companyVat i w))
  = document (intervalCallback companyName companyVat i w).
Proof.
  rewrite (intervalCallback_result _ _ j). cbn [document].
  rewrite (intervalCallback_result _ _ i). cbn [document].
  rewrite !querySelector_alter_found, !getElementById_alter_found.
  apply list_eq. intros ref.
  destruct (document w !! ref) as [e|] eqn:He.
  - pose proof (alter_found_lookup (aligned companyName)
                  (querySelector companySelector (document w)) _ ref _
                  (alter_found_lookup (aligned companyVat)
                     (getElementById pIvaInputId (document w)) _ ref e He))
      as H1.
    rewrite H1.
    erewrite alter_found_lookup; [|by apply alter_found_lookup].
    f_equal. apply (ticked_twice companyName companyVat (document w) ref e).
  - assert (H0 : ∀ d0 : list Element, d0 !! ref = None ->
      alter_found (aligned companyName)
        (querySelector companySelector (document w))
        (alter_found (aligned companyVat)
           (getElementById pIvaInputId (document w)) d0) !! ref = None)
      by (intros; by do 2 apply alter_found_lookup_None).
    by rewrite (H0 _ (H0 _ He)), (H0 _ He).
Qed.

Lemma alter_found_attributes (resolved : string) (found : option nat)
    (d d0 : list Element) :
  Forall2 (fun e e' => tagName e' = tagName e ∧ id e' = id e
                       ∧ name e' = name e
                       ∧ sanitization e' = sanitization e) d d0 ->
  Forall2 (fun e e' => tagName e' = tagName e ∧ id e' = id e
                       ∧ name e' = name e
                       ∧ sanitization e' = sanitization e)
          d (alter_found (aligned resolved) found d0).
Proof.
  intros H. destruct found as [r|]; [|done]. cbn [alter_found].
  revert r. induction H as [|e e' d d0 He H IH]; intros r; [constructor|].
  destruct r as [|r].
  - constructor; [exact He | exact H].
  - constructor; [exact He | apply IH].
Qed.

Lemma alter_found_other (f : Element -> Element) (found : option nat)
    (d : list Element) (ref : nat) :
  found ≠ Some ref -> alter_found f found d !! ref = d !! ref.
Proof.
  intros Hne. destruct found as [r|]; [|done]. cbn [alter_found].
  rewrite list_lookup_alter. rewrite decide_False; [done | congruence].
Qed.

(** X11. A tick touches nothing but the inputs it found and its own
    timer: it registers no timer and hands out no id, leaves every other
    timer as it is, adds and removes no element, leaves every element that
    neither of its two lookups found exactly as it was (value, read-only
    flag and style included), and changes no tag, id or name and no
    setter, so that every lookup by id, and every lookup by a list of
    [input[name=...]] selectors (the only selectors the forms use), finds
    after the tick what it found before. *)
Theorem tick_frame (companyName companyVat : string) (i : nat)
    (w : Window) :
  nextTimerId (intervalCallback companyName companyVat i w) = nextTimerId w
  ∧ (∀ j, j ≠ i ->
       timers (intervalCallback companyName companyVat i w) !! j
       = timers w !! j)
  ∧ (∀ j, timers w !! j = None ->
       timers (intervalCallback companyName companyVat i w) !! j = None)
  ∧ (∀ elementId,
       getElementById elementId
         (document (intervalCallback companyName companyVat i w))
       = getElementById elementId (document w))
  ∧ (∀ names,
       querySelector names
         (document (intervalCallback companyName companyVat i w))
       = querySelector names (document w))
  ∧ Forall2 (fun e e' => tagName e' = tagName e ∧ id e' = id e
                         ∧ name e' = name e
                         ∧ sanitization e' = sanitization e)
            (document w)
            (document (intervalCallback companyName companyVat i w))
  ∧ (∀ ref,
       getElementById pIvaInputId (document w) ≠ Some ref ->
       querySelector companySelector (document w) ≠ Some ref ->
       document (intervalCallback companyName companyVat i w) !! ref
       = document w !! ref)
  ∧ (getElementById pIvaInputId (document w) = None ->
     querySelector companySelector (document w) = None ->
     intervalCallback companyName companyVat i w = w).
Proof.
  rewrite intervalCallback_result. cbn [nextTimerId timers document].
  split; [done|]. split; [|split; [|split; [|split; [|split; [|split]]]]].
  - intros j Hj. destruct (_ || _); [|done]. by apply lookup_delete_ne.
  - intros j Hj. destruct (_ || _); [|done].
    rewrite lookup_delete. by case_decide.
  - intros elementId. by rewrite !getElementById_alter_found.
  - intros names. by rewrite !querySelector_alter_found.
  - do 2 apply alter_found_attributes.
    by apply Forall_Forall2_diag, Forall_forall.
  - intros ref Hvat Hcompany. by rewrite !alter_found_other.
  - intros -> ->. cbn [alter_found]. by destruct w.
Qed.

Lemma run_ticks_no_timers (form : Form) (s : System) (ticks : list nat) :
  timers (window s) = ∅ ->
  run form s (TimerDue <$> ticks) = s.
Proof.
  intros Ht. induction ticks as [|t ticks IH]; [done|].
  unfold run in *. cbn [fmap list_fmap foldl step].
  rewrite fire_unregistered; [|by rewrite Ht, lookup_empty].
  destruct s. exact IH.
Qed.

(** X12. Once a tick has found one of the two inputs the polling is over
    for good: on a page where the form alone sets timers, after the first
    tick found the VAT input or the company input, no tick writes to the
    page any more, so an input that the checkout renders later stays as
    it was rendered until the effect runs again. *)
Theorem late_input_is_not_synced (form : Form) (p : Props)
    (d d' : list Element) (next : nat) (ticks : list nat) :
  is_Some (getElementById pIvaInputId d)
  ∨ is_Some (querySelector companySelector d) ->
  window (run form (idle d next)
            ([Render p; TimerDue next; PageChanges d']
             ++ (TimerDue <$> ticks)))
  = {| document := d'; timers := ∅; nextTimerId := S next |}.
Proof.
  intros Hfound. unfold run. rewrite foldl_app.
  assert (Hb : bool_decide (is_Some (getElementById pIvaInputId d))
               || bool_decide (is_Some (querySelector companySelector d))
               = true).
  { apply orb_true_iff. rewrite !bool_decide_eq_true. exact Hfound. }
  assert (Hs : foldl (step form) (idle d next)
                 [Render p; TimerDue next; PageChanges d']
               = {| window := {| document := d'; timers := ∅;
                                 nextTimerId := S next |};
                    mounted := Some {| lastDeps := deps form p;
                                       intervalId := next |} |}).
  { change (foldl (step form) (idle d next)
              [Render p; TimerDue next; PageChanges d'])
      with {| window :=
                set_document d'
                  (after_first_tick (companyName p) (companyVat p)
                     {| document := d; timers := ∅; nextTimerId := next |}
                     d);
              mounted := Some {| lastDeps := deps form p;
                                 intervalId := next |} |}.
    rewrite after_first_tick_result. cbn [timers nextTimerId].
    rewrite Hb. rewrite delete_insert_id by apply lookup_empty.
    reflexivity. }
  rewrite Hs.
  pose proof (run_ticks_no_timers form
    {| window := {| document := d'; timers := ∅; nextTimerId := S next |};
       mounted := Some {| lastDeps := deps form p; intervalId := next |} |}
    ticks eq_refl) as Hrun.
  exact (f_equal window Hrun).
Qed.

Lemma late_input_is_not_synced_witness :
  (is_Some (getElementById pIvaInputId [vatInput])
   ∨ is_Some (querySelector companySelector [vatInput]))
  ∧ window (run ShippingForm (idle [vatInput] 1)
              ([Render {| shippingFormRenderTimestamp := Some 1%Z;
                          companyName := "Acme"; companyVat := "IT123" |};
                TimerDue 1; PageChanges [vatInput; companyInput]]
               ++ (TimerDue <$> [1; 1; 2])))
    = {| document := [vatInput; companyInput]; timers := ∅;
         nextTimerId := 2 |}.
Proof.
  split; [left; by eexists|].
  apply (late_input_is_not_synced ShippingForm
           {| shippingFormRenderTimestamp := Some 1%Z;
              companyName := "Acme"; companyVat := "IT123" |}
           [vatInput] [vatInput; companyInput] 1 [1; 1; 2]).
  left. by eexists.
Defined.

(** X13. The two forms restart the polling on different occasions. With
    the resolved company name and VAT number unchanged, a render of the
    billing form never restarts it, whatever the render timestamp; a
    render of the shipping form with a new render timestamp clears the
    timer of the previous run and registers a new one, under a fresh id,
    with the same resolved values and the period 300 ms. *)
Theorem render_timestamp_restarts_shipping_only (w : Window) (i : nat)
    (p p' : Props) :
  companyName p' = companyName p ->
  companyVat p' = companyVat p ->
  shippingFormRenderTimestamp p' ≠ shippingFormRenderTimestamp p ->
  step BillingForm
    {| window := w;
       mounted := Some {| lastDeps := deps BillingForm p;
                          intervalId := i |} |}
    (Render p')
  = {| window := w;
       mounted := Some {| lastDeps := deps BillingForm p;
                          intervalId := i |} |}
  ∧ step ShippingForm
      {| window := w;
         mounted := Some {| lastDeps := deps ShippingForm p;
                            intervalId := i |} |}
      (Render p')
    = {| window :=
           {| document := document w;
              timers :=
                <[nextTimerId w :=
                    {| capturedCompanyName := companyName p;
                       capturedCompanyVat := companyVat p;
                       delay := 300 |}]> (delete i (timers w));
              nextTimerId := S (nextTimerId w) |};
         mounted := Some {| lastDeps := deps ShippingForm p';
                            intervalId := nextTimerId w |} |}.
Proof.
  intros Hn Hv Ht. split.
  - cbn [step mounted lastDeps deps]. rewrite Hn, Hv.
    by rewrite decide_True.
  - cbn [step mounted lastDeps deps window intervalId].
    rewrite decide_False by congruence.
    unfold runEffect, syncEffect, setInterval, syncCleanup, clearInterval.
    cbn [document timers nextTimerId deps]. by rewrite Hn, Hv.
Qed.

Lemma render_timestamp_restarts_shipping_only_witness :
  step BillingForm
    {| window := pollingWindow [] "Acme" "IT123";
       mounted :=
         Some {| lastDeps :=
                   deps BillingForm
                     {| shippingFormRenderTimestamp := Some 1%Z;
                        companyName := "Acme"; companyVat := "IT123" |};
                 intervalId := 1 |} |}
    (Render {| shippingFormRenderTimestamp := Some 2%Z;
               companyName := "Acme"; companyVat := "IT123" |})
  = {| window := pollingWindow [] "Acme" "IT123";
       mounted :=
         Some {| lastDeps :=
                   deps BillingForm
                     {| shippingFormRenderTimestamp := Some 1%Z;
                        companyName := "Acme"; companyVat := "IT123" |};
                 intervalId := 1 |} |}
  ∧ timers
      (window
         (step ShippingForm
            {| window := pollingWindow [] "Acme" "IT123";
               mounted :=
                 Some {| lastDeps :=
                           deps ShippingForm
                             {| shippingFormRenderTimestamp := Some 1%Z;
                                companyName := "Acme";
                                companyVat := "IT123" |};
                         intervalId := 1 |} |}
            (Render {| shippingFormRenderTimestamp := Some 2%Z;
                       companyName := "Acme"; companyVat := "IT123" |})))
    = {[ 2 := {| capturedCompanyName := "Acme";
                 capturedCompanyVat := "IT123"; delay := 300 |} ]}.
Proof.
  destruct (render_timestamp_restarts_shipping_only
              (pollingWindow [] "Acme" "IT123") 1
              {| shippingFormRenderTimestamp := Some 1%Z;
                 companyName := "Acme"; companyVat := "IT123" |}
              {| shippingFormRenderTimestamp := Some 2%Z;
                 companyName := "Acme"; companyVat := "IT123" |}
              eq_refl eq_refl) as [Hb Hs].
  - discriminate.
  - split; [exact Hb|]. rewrite Hs. vm_compute. reflexivity.
Defined.

End DomSyncMore.

(** ** The patched shipping address, further *)

Module AddressPatchMore.
Import Sdk AddressPatch AddressPatchSpec.

Lemma or_literal_chain (a b c : string) :
  Js.or_literal (Some a) (Js.or_literal (Some b) c)
  = Js.or_literal (Some (Js.or_literal (Some a) b)) c.
Proof.
  cbn [Js.or_literal].
  destruct (Js.truthy_string a) eqn:Ea; [by rewrite Ea|].
  reflexivity.
Qed.

Lemma customFields_patched_twice (v1 v2 : string) (fields : list CustomField) :
  (fun customField =>
     if Js.strict_eq (fieldId customField) pIvaCustomFieldId
     then {| fieldId := fieldId customField; fieldValue := FVString v2 |}
     else customField)
    <$> ((fun customField =>
            if Js.strict_eq (fieldId customField) pIvaCustomFieldId
            then {| fieldId := fieldId customField;
                    fieldValue := FVString v1 |}
            else customField) <$> fields)
  = (fun customField =>
       if Js.strict_eq (fieldId customField) pIvaCustomFieldId
       then {| fieldId := fieldId customField; fieldValue := FVString v2 |}
       else customField) <$> fields.
Proof.
  rewrite <- list_fmap_compose. apply list_fmap_ext. intros _ c _.
  unfold compose.
  destruct (Js.strict_eq (fieldId c) pIvaCustomFieldId) eqn:E;
    cbn [fieldId]; by rewrite E.
Qed.

(** X14. Patching composes, the later patch winning: patching a patched
    address again gives the address patched once with the later VAT number
    and with the later company name, or the earlier one when the later is
    empty. In particular patching twice with the same resolved values is
    patching once. *)
Theorem patchedShippingAddress_composes
    (name1 vat1 name2 vat2 : string) (shippingAddress : option Address) :
  patchedShippingAddress name2 vat2
    (patchedShippingAddress name1 vat1 shippingAddress)
  = patchedShippingAddress (Js.or_literal (Some name2) name1) vat2
      shippingAddress
  ∧ patchedShippingAddress name1 vat1
      (patchedShippingAddress name1 vat1 shippingAddress)
    = patchedShippingAddress name1 vat1 shippingAddress.
Proof.
  assert (H : ∀ n1 v1 n2 v2,
    patchedShippingAddress n2 v2
      (patchedShippingAddress n1 v1 shippingAddress)
    = patchedShippingAddress (Js.or_literal (Some n2) n1) v2
        shippingAddress).
  { intros n1 v1 n2 v2. destruct shippingAddress as [a|]; [|done].
    unfold patchedShippingAddress.
    cbn [firstName lastName company address1 address2 city stateOrProvince
         stateOrProvinceCode country countryCode postalCode phone
         customFields shouldSaveAddress].
    rewrite or_literal_chain.
    destruct (customFields a) as [fields|]; [|done].
    by rewrite customFields_patched_twice. }
  split; [apply H|]. rewrite H. f_equal.
  cbn [Js.or_literal]. by destruct (Js.truthy_string name1).
Qed.

(** X15. With no resolved company name, an address without an entry for
    the VAT custom field is handed on exactly as it is, whatever the
    resolved VAT number: the patch never adds the entry. *)
Theorem patchedShippingAddress_identity (companyVat : string) (a : Address) :
  (∀ fields, customFields a = Some fields ->
     Forall (fun c => fieldId c ≠ pIvaCustomFieldId) fields) ->
  patchedShippingAddress "" companyVat (Some a) = Some a.
Proof.
  intros Hno. destruct a as [f l c a1 a2 ci sp spc co cc pc ph cf ssa].
  unfold patchedShippingAddress.
  cbn [firstName lastName company address1 address2 city stateOrProvince
       stateOrProvinceCode country countryCode postalCode phone
       customFields shouldSaveAddress] in *.
  do 2 f_equal. destruct cf as [fields|]; [|done]. f_equal.
  specialize (Hno fields eq_refl).
  induction Hno as [|x fields Hx _ IH]; [done|].
  cbn [fmap list_fmap]. f_equal; [|exact IH].
  apply JsFacts.strict_eq_false in Hx. by rewrite Hx.
Qed.

Lemma patchedShippingAddress_identity_witness :
  (∀ fields,
     customFields
       {| firstName := "Ada"; lastName := "Rossi"; company := "Old name";
          address1 := "Via Roma 1"; address2 := ""; city := "Napoli";
          stateOrProvince := "NA"; stateOrProvinceCode := "NA";
          country := "Italy"; countryCode := "IT"; postalCode := "80100";
          phone := "";
          customFields :=
            Some [ {| fieldId := "field_32"; fieldValue := FVString "SDI" |} ];
          shouldSaveAddress := None |} = Some fields ->
     Forall (fun c => fieldId c ≠ pIvaCustomFieldId) fields)
  ∧ patchedShippingAddress "" "IT123"
      (Some {| firstName := "Ada"; lastName := "Rossi";
               company := "Old name";
               address1 := "Via Roma 1"; address2 := ""; city := "Napoli";
               stateOrProvince := "NA"; stateOrProvinceCode := "NA";
               country := "Italy"; countryCode := "IT";
               postalCode := "80100"; phone := "";
               customFields :=
                 Some [ {| fieldId := "field_32";
                           fieldValue := FVString "SDI" |} ];
               shouldSaveAddress := None |})
    = Some {| firstName := "Ada"; lastName := "Rossi";
              company := "Old name";
              address1 := "Via Roma 1"; address2 := ""; city := "Napoli";
              stateOrProvince := "NA"; stateOrProvinceCode := "NA";
              country := "Italy"; countryCode := "IT";
              postalCode := "80100"; phone := "";
              customFields :=
                Some [ {| fieldId := "field_32";
                          fieldValue := FVString "SDI" |} ];
              shouldSaveAddress := None |}.
Proof.
  assert (Hno : ∀ fields,
     customFields
       {| firstName := "Ada"; lastName := "Rossi"; company := "Old name";
          address1 := "Via Roma 1"; address2 := ""; city := "Napoli";
          stateOrProvince := "NA"; stateOrProvinceCode := "NA";
          country := "Italy"; countryCode := "IT"; postalCode := "80100";
          phone := "";
          customFields :=
            Some [ {| fieldId := "field_32"; fieldValue := FVString "SDI" |} ];
          shouldSaveAddress := None |} = Some fields ->
     Forall (fun c => fieldId c ≠ pIvaCustomFieldId) fields).
  { intros fields [= <-]. repeat constructor. discriminate. }
  split; [exact Hno|].
  exact (patchedShippingAddress_identity "IT123" _ Hno).
Defined.

End AddressPatchMore.

(** ** ShippingForm: what the child form receives *)

Module ShippingFormRenderFacts.
Import Sdk ShippingFormRender FieldPatchSpec FieldPatchMoreSpec.

(** The company of the patched address is the resolved company name: the
    fallback to the address's own company is already the last link of the
    name's resolution. *)
Lemma patched_company_is_companyName (customer : option Customer)
    (a : Address) :
  Js.or_literal (Some (CompanyInfo.companyName customer (Some a)))
                (company a)
  = CompanyInfo.companyName customer (Some a).
Proof.
  rewrite JsFacts.or_literal_some. case_decide as Hn; [|done].
  rewrite Hn.
  pose proof (CompanyInfoFacts.or_chain_by_precedence
                (CompanyInfoSpec.groupNameOf customer)
                (CompanyInfoSpec.firstAddressCompany customer)
                (CompanyInfoSpec.editedCompany (Some a))) as Hp.
  rewrite <- CompanyInfoFacts.companyName_chain, Hn in Hp.
  inversion Hp as [s ? Hs | s ? ? Hs | s ? ? ? Hs | ? ? He]; try done.
  destruct (decide (company a = "")) as [|Hc]; [done|].
  destruct He. exists (company a). done.
Qed.

(** X16. When the parent's flag is off the shipping form renders the
    single-shipping form, and hands it: the flag, off; the shipping address
    patched with the resolved values, whose company is then exactly the
    resolved company name; and a [getFields] in whose results no company
    field and no VAT field is required, in particular not the field named
    like the custom field the address patch writes the VAT number into.
    When the flag is on it renders the multi-shipping form, which gets
    only the country code of the unpatched address. *)
Theorem ShippingForm_hands_on_patched (props : Props)
    (customer : option Customer) (companyVat : string) :
  (propIsMultiShippingMode props = false ->
   ∃ single,
     ShippingForm props customer companyVat = SingleShippingForm single
     ∧ isMultiShippingMode single = false
     ∧ shippingAddress single
       = AddressPatch.patchedShippingAddress
           (CompanyInfo.companyName customer (propShippingAddress props))
           companyVat (propShippingAddress props)
     ∧ (∀ a, shippingAddress single = Some a ->
          company a
          = CompanyInfo.companyName customer (propShippingAddress props))
     ∧ (∀ countryCode,
          Forall (fun f => shipping_alias f -> required f = false)
                 (getFields single countryCode))
     ∧ (∀ countryCode,
          Forall (fun f => name f = AddressPatch.pIvaCustomFieldId ->
                           required f = false)
                 (getFields single countryCode)))
  ∧ (propIsMultiShippingMode props = true ->
     ∃ multi,
       ShippingForm props customer companyVat = MultiShippingForm multi
       ∧ defaultCountryCode multi
         = countryCode <$> propShippingAddress props).
Proof.
  unfold ShippingForm. cbv zeta. split; intros ->.
  - eexists. split; [reflexivity|].
    cbn [isMultiShippingMode shippingAddress getFields].
    split; [done|]. split; [done|]. split; [|split].
    + intros a' Ha.
      destruct (propShippingAddress props) as [a|]; [|done].
      cbn [AddressPatch.patchedShippingAddress] in Ha.
      injection Ha as <-. cbn [company].
      apply patched_company_is_companyName.
    + intros cc. apply FieldPatchMore.shipping_output_optional.
    + intros cc.
      eapply Forall_impl; [apply FieldPatchMore.shipping_output_optional|].
      intros f Hf Hname. apply Hf. right. left. exact Hname.
  - eexists. split; [reflexivity|]. done.
Qed.

End ShippingFormRenderFacts.
